(** * list_converged_recordings.py: a shallow embedding and its properties

    The script pages through the Webex "converged recordings" listing,
    backs off on HTTP 429, and writes every record to a CSV file.  Each
    Python function is embedded under its own name.  Effects are made
    explicit: the network is a script of answers consumed one per GET,
    exceptions are values of [exn], and everything the program does to the
    outside world is appended to a trace of [Event]s. *)

From Stdlib Require Import ZArith String Ascii List Lia Bool.
From Stdlib Require Import Floats.PrimFloat.
From stdpp Require Import gmap strings list fin_maps pretty.

Local Open Scope string_scope.
Local Open Scope Z_scope.
Local Open Scope list_scope.

(** ** Exceptions and fallible results *)

(** The exception classes that can travel through the script. *)
Inductive exn : Type :=
  | RateLimitError (wait_seconds : Z)
  | HTTPError (status : Z)
  | ConnectionError
  | JSONDecodeError
  | AttributeError
  | ValueError
  | UnicodeEncodeError
  | OSError
  | OverflowError
  | SystemExit (code : Z).

Inductive result (A : Type) : Type :=
  | Ok (a : A)
  | Err (e : exn).
Arguments Ok {A} a.
Arguments Err {A} e.

#[global] Instance result_ret : MRet result := fun A a => Ok a.
#[global] Instance result_bind : MBind result :=
  fun A B f m => match m with Ok a => f a | Err e => Err e end.

(** ** Python [str] operations

    A header value reaches the script decoded as latin-1, so each of its
    characters is a code point below 256: exactly what [ascii] holds. *)
Module PyStr.

Definition dquote : string := String "034"%char EmptyString.
Definition squote : string := String "039"%char EmptyString.

(** [str.isspace] on the code points below 256. *)
Definition isspace (c : ascii) : bool :=
  let n := N_of_ascii c in
  ((9 <=? n) && (n <=? 13) || (28 <=? n) && (n <=? 32) || (n =? 133) || (n =? 160))%N.

Fixpoint lstrip (s : string) : string :=
  match s with
  | EmptyString => EmptyString
  | String c r => if isspace c then lstrip r else s
  end.

Fixpoint rstrip (s : string) : string :=
  match s with
  | EmptyString => EmptyString
  | String c r =>
      match rstrip r with
      | EmptyString => if isspace c then EmptyString else String c EmptyString
      | r' => String c r'
      end
  end.

(** [s.strip()] *)
Definition strip (s : string) : string := rstrip (lstrip s).

(** [s.split(sep)] for a one-character separator: never an empty list. *)
Fixpoint split (sep : ascii) (s : string) : list string :=
  match s with
  | EmptyString => [EmptyString]
  | String c r =>
      if Ascii.eqb c sep then EmptyString :: split sep r
      else match split sep r with
           | p :: ps => String c p :: ps
           | [] => [String c EmptyString]
           end
  end.

(** [needle in hay] *)
Fixpoint contains (needle hay : string) : bool :=
  String.prefix needle hay ||
  match hay with
  | EmptyString => false
  | String _ r => contains needle r
  end.

(** Truth value of a [str]: non-empty. *)
Definition truthy (s : string) : bool :=
  match s with EmptyString => false | _ => true end.

End PyStr.

(** ** The regular expression [<([^>]+)>] *)
Module Re.

(** The longest run of characters other than [>] at the head of [s], and
    what follows it. *)
Fixpoint span_not_gt (s : string) : string * string :=
  match s with
  | EmptyString => (EmptyString, EmptyString)
  | String c r =>
      if Ascii.eqb c ">" then (EmptyString, s)
      else let '(run, tail) := span_not_gt r in (String c run, tail)
  end.

(** A match anchored at the head of [s]; the result is group 1.  The
    class [[^>]+] is greedy, and giving characters back cannot help: what
    would then follow the run is itself not [>]. *)
Definition match_here (s : string) : option string :=
  match s with
  | String "<" r =>
      match span_not_gt r with
      | (String c run, String ">" _) => Some (String c run)
      | _ => None
      end
  | _ => None
  end.

(** [re.search(r"<([^>]+)>", s)]: the leftmost match, as its group 1. *)
Fixpoint search (s : string) : option string :=
  match match_here s with
  | Some g => Some g
  | None =>
      match s with
      | EmptyString => None
      | String _ r => search r
      end
  end.

End Re.

(** ** Link header parser *)

Definition rel_next_double : string :=
  "rel=" +:+ PyStr.dquote +:+ "next" +:+ PyStr.dquote.
Definition rel_next_single : string :=
  "rel=" +:+ PyStr.squote +:+ "next" +:+ PyStr.squote.

(** The test of the [if] inside the loop, on the stripped part. *)
Definition has_rel_next (part : string) : bool :=
  PyStr.contains rel_next_double part || PyStr.contains rel_next_single part.

(** The [for part in link_header.split(",")] loop. *)
Fixpoint parse_link_parts (parts : list string) : option string :=
  match parts with
  | [] => None
  | part :: rest =>
      let part := PyStr.strip part in
      if has_rel_next part then
        match Re.search part with
        | Some g => Some (PyStr.strip g)
        | None => parse_link_parts rest
        end
      else parse_link_parts rest
  end.

Definition parse_link_header (link_header : string) : option string :=
  if negb (PyStr.truthy link_header) then None
  else parse_link_parts (PyStr.split "," link_header).


(** ** [int(str)]

    CPython's parser for base 10, on a latin-1 string: blanks around the
    literal are skipped, an optional sign, then digits that single
    underscores may separate.  A literal of more than
    [int_max_str_digits] digits is refused as well (the interpreter's
    default limit).  Every failure is a [ValueError]. *)
Module PyInt.

Definition int_max_str_digits : N := 4300.

(** The blanks [int] skips: tab to carriage return, space, and the two
    latin-1 blanks NEL and NBSP.  The separators 28..31, which [str.strip]
    removes, are not among them. *)
Definition is_blank (c : ascii) : bool :=
  let n := N_of_ascii c in
  ((9 <=? n) && (n <=? 13) || (n =? 32) || (n =? 133) || (n =? 160))%N.

Fixpoint skip_blanks (s : string) : string :=
  match s with
  | EmptyString => EmptyString
  | String c r => if is_blank c then skip_blanks r else s
  end.

Fixpoint drop_trailing_blanks (s : string) : string :=
  match s with
  | EmptyString => EmptyString
  | String c r =>
      match drop_trailing_blanks r with
      | EmptyString => if is_blank c then EmptyString else String c EmptyString
      | r' => String c r'
      end
  end.

Definition digit_val (c : ascii) : option Z :=
  let n := N_of_ascii c in
  if ((48 <=? n) && (n <=? 57))%N then Some (Z.of_N n - 48) else None.

(** The rest of a literal whose previous character was a digit: the value
    so far and the number of digits read. *)
Fixpoint digits (s : string) (acc : Z) (count : N) : option (Z * N) :=
  match s with
  | EmptyString => Some (acc, count)
  | String c r =>
      match digit_val c with
      | Some d => digits r (10 * acc + d) (count + 1)%N
      | None =>
          if Ascii.eqb c "_" then
            match r with
            | String c' r' =>
                match digit_val c' with
                | Some d => digits r' (10 * acc + d) (count + 1)%N
                | None => None
                end
            | EmptyString => None
            end
          else None
      end
  end.

Definition unsigned_literal (s : string) : option Z :=
  match s with
  | String c r =>
      match digit_val c with
      | Some d =>
          match digits r d 1%N with
          | Some (v, n) => if (int_max_str_digits <? n)%N then None else Some v
          | None => None
          end
      | None => None
      end
  | EmptyString => None
  end.

Definition py_int (s : string) : result Z :=
  let s := drop_trailing_blanks (skip_blanks s) in
  let signed :=
    match s with
    | String "-" r => Z.opp <$> unsigned_literal r
    | String "+" r => unsigned_literal r
    | _ => unsigned_literal s
    end in
  match signed with
  | Some n => Ok n
  | None => Err ValueError
  end.

End PyInt.

(** ** JSON values, as [json.loads] builds them *)

#[warnings="-register-all"]
Inductive JSON : Type :=
  | JNull
  | JBool (b : bool)
  | JInt (z : Z)
  | JFloat (f : PrimFloat.float)
  | JStr (s : string)
  | JList (l : list JSON)
  | JObj (m : gmap string JSON).

Module Py.

(** Truth value of an object, as [or] and [not] test it. *)
Definition truthy (v : JSON) : bool :=
  match v with
  | JNull => false
  | JBool b => b
  | JInt z => negb (z =? 0)%Z
  | JFloat f => negb (PrimFloat.eqb f PrimFloat.zero)
  | JStr s => PyStr.truthy s
  | JList l => match l with [] => false | _ => true end
  | JObj m => negb (bool_decide (m = ∅))
  end.

(** [a or b] *)
Definition or (a b : JSON) : JSON := if truthy a then a else b.

(** [v.get(key, default)]: only a dict has the method. *)
Definition get (v : JSON) (key : string) (dflt : JSON) : result JSON :=
  match v with
  | JObj m => Ok (default dflt (m !! key))
  | _ => Err AttributeError
  end.

End Py.

(** ** Row mapper and CSV writer *)

Definition DEFAULT_CSV_FILENAME : string := "converged_recordings.csv".

Definition CSV_FIELDNAMES : list string :=
  [ "id"; "topic"; "createTime"; "timeRecorded"; "ownerId"; "ownerEmail"; "ownerType";
    "format"; "durationSeconds"; "sizeBytes"; "serviceType"; "storageRegion"; "status";
    "locationId"; "callSessionId" ].

Definition _item_to_row (item : JSON) : result (gmap string JSON) :=
  sd ← Py.get item "serviceData" JNull;
  let service_data := Py.or sd (JObj ∅) in
  v_id ← Py.get item "id" (JStr EmptyString);
  v_topic ← Py.get item "topic" (JStr EmptyString);
  v_createTime ← Py.get item "createTime" (JStr EmptyString);
  v_timeRecorded ← Py.get item "timeRecorded" (JStr EmptyString);
  v_ownerId ← Py.get item "ownerId" (JStr EmptyString);
  v_ownerEmail ← Py.get item "ownerEmail" (JStr EmptyString);
  v_ownerType ← Py.get item "ownerType" (JStr EmptyString);
  v_format ← Py.get item "format" (JStr EmptyString);
  v_durationSeconds ← Py.get item "durationSeconds" (JStr EmptyString);
  v_sizeBytes ← Py.get item "sizeBytes" (JStr EmptyString);
  v_serviceType ← Py.get item "serviceType" (JStr EmptyString);
  v_storageRegion ← Py.get item "storageRegion" (JStr EmptyString);
  v_status ← Py.get item "status" (JStr EmptyString);
  v_locationId ← Py.get service_data "locationId" (JStr EmptyString);
  v_callSessionId ← Py.get service_data "callSessionId" (JStr EmptyString);
  mret (list_to_map
    [ ("id", v_id); ("topic", v_topic); ("createTime", v_createTime);
      ("timeRecorded", v_timeRecorded); ("ownerId", v_ownerId);
      ("ownerEmail", v_ownerEmail); ("ownerType", v_ownerType);
      ("format", v_format); ("durationSeconds", v_durationSeconds);
      ("sizeBytes", v_sizeBytes); ("serviceType", v_serviceType);
      ("storageRegion", v_storageRegion); ("status", v_status);
      ("locationId", v_locationId); ("callSessionId", v_callSessionId) ]).

(** ** What the program does to the outside world *)

(** One constructor per message the script prints. *)
Inductive Msg : Type :=
  | MsgRateLimitGiveUp
  | MsgRateLimitWait (wait_seconds : Z)
  | MsgApiError (e : exn)
  | MsgRequestError (e : exn)
  | MsgMissingItems
  | MsgSaved (count : nat) (path : string)
  | MsgNeedRequests
  | MsgAborted
  | MsgTokenRequired
  | MsgError (e : exn)
  | MsgFinalCount (count : nat).

(** [EvSessionGet] and [EvUrlopen] are the calls the page fetcher makes of
    the HTTP client, with the URL it passes and the token of the
    [Authorization] header it sets.  A call is one event, whatever the
    client does within it: a redirect the client follows on its own leaves
    no event. *)
Inductive Event : Type :=
  | EvSessionGet (url token : string)
  | EvUrlopen (url token : string)
  | EvSleep (seconds : Z)
  | EvOpenW (path : string)
  | EvWriteHeader (names : list string)
  | EvWriteRow (cells : list JSON)
  | EvPrompt
  | EvStderr (m : Msg)
  | EvStdout (m : Msg).

Definition Trace : Type := list Event.

(** Run [k] after the events [evs] have happened. *)
Definition after {A : Type} (evs : Trace) (k : Trace * A) : Trace * A :=
  (evs ++ k.1, k.2).

(** [csv.DictWriter.writerow] with [extrasaction="ignore"]: the cells in
    field order, [restval] (the empty string) for a missing key. *)
Definition dict_to_cells (row : gmap string JSON) : list JSON :=
  (fun key => default (JStr EmptyString) (row !! key)) <$> CSV_FIELDNAMES.

(** The [for item in items] loop of [write_recordings_csv].  The text of a
    row is made by the [csv] module and encoded by the file object, neither
    of which is part of the script: [writerow_error] tells what the two
    raise on a row of cells, if anything.  A row that raises leaves nothing
    in the file, and the rows before it stay written. *)
Fixpoint write_rows (writerow_error : list JSON → option exn) (items : list JSON)
  : Trace * result unit :=
  match items with
  | [] => ([], Ok tt)
  | item :: rest =>
      match _item_to_row item with
      | Err e => ([], Err e)
      | Ok row =>
          let cells := dict_to_cells row in
          match writerow_error cells with
          | Some e => ([], Err e)
          | None => after [EvWriteRow cells] (write_rows writerow_error rest)
          end
      end
  end.

(** [writable]: whether [open(path, "w")] succeeds. *)
Definition write_recordings_csv (writable : bool) (writerow_error : list JSON → option exn)
    (items : list JSON) (path : string) : Trace * result unit :=
  if writable then
    after [EvOpenW path; EvWriteHeader CSV_FIELDNAMES] (write_rows writerow_error items)
  else ([], Err OSError).

(** What CPython's [csv.writer] raises on a row.  A string cell is written
    as it is and [None] as nothing; any other cell goes through [str], and
    [str] of an [int] of more than 4300 digits raises [ValueError], also
    when the [int] sits inside a list or a mapping, whose [str] takes the
    [repr] of each member.  The strings of this development hold code
    points below 256 only, which UTF-8 always encodes: the
    [UnicodeEncodeError] a lone surrogate causes cannot come up here. *)
Module Csv.

(** [n], not negative, has more than [limit] decimal digits. *)
Fixpoint more_digits_than (limit : nat) (n : Z) : bool :=
  match limit with
  | O => negb (n =? 0)%Z
  | S limit => negb (n =? 0)%Z && more_digits_than limit (n / 10)
  end.

Fixpoint str_raises (v : JSON) : bool :=
  match v with
  | JInt z => more_digits_than (N.to_nat PyInt.int_max_str_digits) (Z.abs z)
  | JList l => existsb str_raises l
  | JObj m => map_fold (fun _ member found => found || str_raises member) false m
  | _ => false
  end.

Definition writerow_error (cells : list JSON) : option exn :=
  if existsb str_raises cells then Some ValueError else None.

End Csv.

(** ** The query window: [datetime] arithmetic and formatting

    The calendar functions follow CPython's [datetime] module, whose
    names they keep. *)
Module Calendar.

Record datetime : Type := mk_datetime {
  year : Z; month : Z; day : Z;
  hour : Z; minute : Z; second : Z; microsecond : Z }.

Definition _MAXORDINAL : Z := 3652059.
Definition _DI400Y : Z := 146097.
Definition _DI100Y : Z := 36524.
Definition _DI4Y : Z := 1461.

Definition _DAYS_IN_MONTH : list Z :=
  [-1; 31; 28; 31; 30; 31; 30; 31; 31; 30; 31; 30; 31].
Definition _DAYS_BEFORE_MONTH : list Z :=
  [-1; 0; 31; 59; 90; 120; 151; 181; 212; 243; 273; 304; 334].

Definition table (t : list Z) (i : Z) : Z := nth (Z.to_nat i) t 0.

Definition _is_leap (year : Z) : bool :=
  (year mod 4 =? 0)%Z && (negb (year mod 100 =? 0)%Z || (year mod 400 =? 0)%Z).

Definition _days_before_year (year : Z) : Z :=
  let y := year - 1 in
  y * 365 + y / 4 - y / 100 + y / 400.

Definition _days_in_month (year month : Z) : Z :=
  if (month =? 2)%Z && _is_leap year then 29 else table _DAYS_IN_MONTH month.

Definition _days_before_month (year month : Z) : Z :=
  table _DAYS_BEFORE_MONTH month + Z.b2z ((2 <? month) && _is_leap year).

Definition _ymd2ord (year month day : Z) : Z :=
  _days_before_year year + _days_before_month year month + day.

Definition _ord2ymd (n : Z) : Z * Z * Z :=
  let n := n - 1 in
  let n400 := n / _DI400Y in
  let n := n mod _DI400Y in
  let year := n400 * 400 + 1 in
  let n100 := n / _DI100Y in
  let n := n mod _DI100Y in
  let n4 := n / _DI4Y in
  let n := n mod _DI4Y in
  let n1 := n / 365 in
  let n := n mod 365 in
  let year := year + n100 * 100 + n4 * 4 + n1 in
  if (n1 =? 4)%Z || (n100 =? 4)%Z then (year - 1, 12, 31)
  else
    let leapyear := (n1 =? 3)%Z && (negb (n4 =? 24)%Z || (n100 =? 3)%Z) in
    let month := Z.shiftr (n + 50) 5 in
    let preceding := table _DAYS_BEFORE_MONTH month + Z.b2z ((2 <? month) && leapyear) in
    if (n <? preceding)%Z then
      let month := month - 1 in
      let preceding :=
        preceding - (table _DAYS_IN_MONTH month + Z.b2z ((month =? 2)%Z && leapyear)) in
      (year, month, n - preceding + 1)
    else (year, month, n - preceding + 1).

Definition toordinal (dt : datetime) : Z :=
  _ymd2ord (year dt) (month dt) (day dt).

(** [dt - timedelta(days=days)]: the date goes through its ordinal, the
    time of day through its seconds. *)
Definition sub_days (dt : datetime) (days : Z) : result datetime :=
  let delta_days := toordinal dt - days in
  let delta_seconds := hour dt * 3600 + minute dt * 60 + second dt in
  let rem := delta_seconds mod 3600 in
  if (0 <? delta_days) && (delta_days <=? _MAXORDINAL) then
    let '(y, m, d) := _ord2ymd delta_days in
    Ok (mk_datetime y m d (delta_seconds / 3600) (rem / 60) (rem mod 60) (microsecond dt))
  else Err OverflowError.

Definition digit_char (d : Z) : ascii := ascii_of_N (48 + Z.to_N (d mod 10)).

Definition two_digits (n : Z) : string :=
  String (digit_char (n / 10)) (String (digit_char n) EmptyString).

Definition four_digits (n : Z) : string :=
  two_digits (n / 100) +:+ two_digits (n mod 100).

(** [%Y] as glibc's [strftime] renders it: the year in decimal, with no
    padding when it has fewer than four digits. *)
Definition year_digits (y : Z) : string :=
  if (y <? 10)%Z then String (digit_char y) EmptyString
  else if (y <? 100)%Z then two_digits y
  else if (y <? 1000)%Z then String (digit_char (y / 100)) (two_digits y)
  else four_digits y.

(** [dt.strftime("%Y-%m-%dT%H:%M:%SZ")]. *)
Definition strftime_iso (dt : datetime) : string :=
  year_digits (year dt) +:+ "-" +:+ two_digits (month dt) +:+ "-" +:+ two_digits (day dt)
  +:+ "T" +:+ two_digits (hour dt) +:+ ":" +:+ two_digits (minute dt) +:+ ":"
  +:+ two_digits (second dt) +:+ "Z".

End Calendar.

(** [now]: what [datetime.now(timezone.utc)] reads. *)
Definition _past_30_days_iso (now : Calendar.datetime) : result (string * string) :=
  from_dt ← Calendar.sub_days now 30;
  mret (Calendar.strftime_iso from_dt, Calendar.strftime_iso now).

(** ** [urllib.parse.urlencode] *)
Module Url.

(** The characters [quote_plus] never escapes. *)
Definition is_unreserved (c : ascii) : bool :=
  let n := N_of_ascii c in
  ((48 <=? n) && (n <=? 57) || (65 <=? n) && (n <=? 90) || (97 <=? n) && (n <=? 122)
   || (n =? 45) || (n =? 46) || (n =? 95) || (n =? 126))%N.

Definition hex_char (n : N) : ascii :=
  if (n <? 10)%N then ascii_of_N (48 + n) else ascii_of_N (55 + n).

(** The string is read as its UTF-8 bytes, each escaped on its own. *)
Fixpoint quote_plus (s : string) : string :=
  match s with
  | EmptyString => EmptyString
  | String c r =>
      if Ascii.eqb c " " then String "+" (quote_plus r)
      else if is_unreserved c then String c (quote_plus r)
      else
        let n := N_of_ascii c in
        String "%" (String (hex_char (n / 16)) (String (hex_char (n mod 16)) (quote_plus r)))
  end.

Fixpoint join (sep : string) (parts : list string) : string :=
  match parts with
  | [] => EmptyString
  | [p] => p
  | p :: rest => p +:+ sep +:+ join sep rest
  end.

Definition urlencode (query : list (string * string)) : string :=
  join "&" ((fun kv => quote_plus kv.1 +:+ "=" +:+ quote_plus kv.2) <$> query).

End Url.

(** ** Page fetcher *)

Definition BASE_URL : string := "https://webexapis.com/v1".
Definition CONVERGED_RECORDINGS_PATH : string := "admin/convergedRecordings".
Definition DEFAULT_MAX_PER_PAGE : Z := 100.
Definition MAX_429_RETRIES : Z := 10.
Definition RETRY_AFTER_CAP_SECONDS : Z := 300.
Definition RETRY_AFTER_DEFAULT_SECONDS : Z := 60.

(** A response as it arrives.  [headers] holds the header lines in the
    order received, each with its field name lower-cased (both HTTP clients
    look names up without regard to case); a field can come on several
    lines.  [body] is [None] when the payload is not valid JSON. *)
Record Response : Type := mk_response {
  status_code : Z;
  headers : list (string * string);
  body : option JSON }.

(** The values of the lines of [r] whose field is [name], in order. *)
Definition header_lines (r : Response) (name : string) : list string :=
  (filter (fun line => line.1 = name) (headers r)).*2.

(** [headers.get(name)].  The two clients differ on a field that comes on
    several lines: [requests] hands out the values joined with [", "],
    [urllib] the first value only. *)
Definition headers_get (has_requests : bool) (r : Response) (name : string)
  : option string :=
  match header_lines r name with
  | [] => None
  | first :: more =>
      Some (if has_requests then Url.join ", " (first :: more) else first)
  end.

(** What one call of the HTTP client ([session.get], [urlopen]) comes back
    with: the response the client hands to the script, after any redirect
    the client has followed on its own. *)
Inductive NetResult : Type :=
  | Unreachable
  | Answer (r : Response).

(** Lines 118-123 and 138-143: the wait a 429 carries. *)
Definition retry_wait_sec (retry_after : option string) : Z :=
  let wait_sec :=
    match retry_after with
    | Some s =>
        if PyStr.truthy s then
          match PyInt.py_int s with
          | Ok n => n
          | Err _ => RETRY_AFTER_DEFAULT_SECONDS
          end
        else RETRY_AFTER_DEFAULT_SECONDS
    | None => RETRY_AFTER_DEFAULT_SECONDS
    end in
  Z.min wait_sec RETRY_AFTER_CAP_SECONDS.

(** [r.raise_for_status()] raises on 4xx and 5xx only. *)
Definition raise_for_status (r : Response) : result unit :=
  if (400 <=? status_code r) && (status_code r <? 600)
  then Err (HTTPError (status_code r)) else Ok tt.

(** [time.sleep] refuses a negative length. *)
Definition time_sleep (seconds : Z) : Trace * result unit :=
  if (seconds <? 0)%Z then ([], Err ValueError) else ([EvSleep seconds], Ok tt).

(** Whether [hasattr(e, "response")] holds: the exceptions of [requests]
    carry the attribute. *)
Definition has_response (e : exn) : bool :=
  match e with
  | HTTPError _ | ConnectionError | JSONDecodeError => true
  | _ => false
  end.

Inductive LoopExit : Type :=
  | Broke (all_items : list JSON)
  | Aborted (e : exn)
  | Starved (url : string) (all_items : list JSON) (consecutive_429 : Z).

Inductive Outcome : Type :=
  | Returned (count : nat)
  | Raised (e : exn)
  | Waiting.

Inductive StdinResult : Type :=
  | InputLine (s : string)
  | InputEOF
  | InputInterrupt.

(** Everything a run depends on from outside: the clock, the line typed
    at the prompt, the answers of the network, whether the output file can
    be opened, and what writing a row raises (see [write_rows]). *)
Record World : Type := mk_world {
  now : Calendar.datetime;
  stdin : StdinResult;
  answers : list NetResult;
  writable : bool;
  writerow_error : list JSON → option exn }.

Inductive ProcessExit : Type :=
  | Exited (status : Z)
  | Blocked.

Section Script.

(** Whether [import requests] succeeded when the module was loaded. *)
Variable HAS_REQUESTS : bool.

(** [answer] is what the GET of [url] comes back with. *)
Definition fetch_page (url token : string) (answer : NetResult)
  : Event * result (JSON * option string) :=
  if HAS_REQUESTS then
    (EvSessionGet url token,
     match answer with
     | Unreachable => Err ConnectionError
     | Answer r =>
         let next_url :=
           parse_link_header (default EmptyString (headers_get true r "link")) in
         if (status_code r =? 429)%Z then
           Err (RateLimitError (retry_wait_sec (headers_get true r "retry-after")))
         else
           _ ← raise_for_status r;
           match body r with
           | Some data => Ok (data, next_url)
           | None => Err JSONDecodeError
           end
     end)
  else
    (EvUrlopen url token,
     match answer with
     | Unreachable => Err ConnectionError
     | Answer r =>
         if (200 <=? status_code r) && (status_code r <? 300) then
           let next_url :=
             parse_link_header (default EmptyString (headers_get false r "link")) in
           match body r with
           | Some data => Ok (data, next_url)
           | None => Err JSONDecodeError
           end
         else if (status_code r =? 429)%Z then
           Err (RateLimitError (retry_wait_sec (headers_get false r "retry-after")))
         else Err (HTTPError (status_code r))
     end).

(** The [while True] loop of [list_all_recordings], one answer of the
    network per iteration.  [Starved] is the loop about to issue a GET
    that the script of answers does not cover. *)
Fixpoint paginate (token : string) (answers : list NetResult)
    (url : string) (all_items : list JSON) (consecutive_429 : Z) : Trace * LoopExit :=
  match answers with
  | [] => ([], Starved url all_items consecutive_429)
  | answer :: rest =>
      let '(ev, fetched) := fetch_page url token answer in
      match fetched with
      | Err (RateLimitError wait_seconds) =>
          let consecutive_429 := consecutive_429 + 1 in
          if (MAX_429_RETRIES <? consecutive_429)%Z then
            ([ev; EvStderr MsgRateLimitGiveUp], Aborted (SystemExit 1))
          else
            let '(slept, woke) := time_sleep wait_seconds in
            match woke with
            | Err e => (ev :: EvStderr (MsgRateLimitWait wait_seconds) :: slept, Aborted e)
            | Ok _ =>
                after (ev :: EvStderr (MsgRateLimitWait wait_seconds) :: slept)
                  (paginate token rest url all_items consecutive_429)
            end
      | Err e =>
          ([ev; EvStderr (if HAS_REQUESTS && has_response e
                          then MsgApiError e else MsgRequestError e)],
           Aborted e)
      | Ok (data, next_url) =>
          match Py.get data "items" JNull with
          | Err e => ([ev], Aborted e)
          | Ok (JList items) =>
              let all_items := all_items ++ items in
              match next_url with
              | Some next =>
                  if PyStr.truthy next then after [ev] (paginate token rest next all_items 0)
                  else ([ev], Broke all_items)
              | None => ([ev], Broke all_items)
              end
          | Ok _ => ([ev; EvStderr MsgMissingItems], Aborted (SystemExit 1))
          end
      end
  end.

Definition initial_url (from_iso to_iso : string) : string :=
  let query :=
    Url.urlencode [("from", from_iso); ("to", to_iso); ("max", pretty DEFAULT_MAX_PER_PAGE)] in
  BASE_URL +:+ "/" +:+ CONVERGED_RECORDINGS_PATH +:+ "?" +:+ query.

Definition list_all_recordings (w : World) (token csv_path : string) : Trace * Outcome :=
  match _past_30_days_iso (now w) with
  | Err e => ([], Raised e)
  | Ok (from_iso, to_iso) =>
      let url := initial_url from_iso to_iso in
      let '(fetched, exit) := paginate token (answers w) url [] 0 in
      match exit with
      | Aborted e => (fetched, Raised e)
      | Starved _ _ _ => (fetched, Waiting)
      | Broke all_items =>
          let '(written, done) :=
            write_recordings_csv (writable w) (writerow_error w) all_items csv_path in
          match done with
          | Err e => (fetched ++ written, Raised e)
          | Ok _ =>
              (fetched ++ written ++ [EvStderr (MsgSaved (length all_items) csv_path)],
               Returned (length all_items))
          end
      end
  end.

Definition get_token_from_user (input : StdinResult) : Trace * result string :=
  match input with
  | InputLine line =>
      let token := PyStr.strip line in
      if negb (PyStr.truthy token)
      then ([EvPrompt; EvStderr MsgTokenRequired], Err (SystemExit 1))
      else ([EvPrompt], Ok token)
  | InputEOF | InputInterrupt => ([EvPrompt; EvStderr MsgAborted], Err (SystemExit 1))
  end.

(** The process ends with status 0 when [main] returns, and with the
    code of a [SystemExit] otherwise. *)
Definition main (w : World) : Trace * ProcessExit :=
  if negb HAS_REQUESTS then ([EvStderr MsgNeedRequests], Exited 1)
  else
    let '(asked, token) := get_token_from_user (stdin w) in
    match token with
    | Err (SystemExit code) => (asked, Exited code)
    | Err _ => (asked, Exited 1)
    | Ok token =>
        let '(ran, outcome) := list_all_recordings w token DEFAULT_CSV_FILENAME in
        match outcome with
        | Returned count => (asked ++ ran ++ [EvStdout (MsgFinalCount count)], Exited 0)
        | Raised (SystemExit code) => (asked ++ ran, Exited code)
        | Raised e => (asked ++ ran ++ [EvStderr (MsgError e)], Exited 1)
        | Waiting => (asked ++ ran, Blocked)
        end
    end.

End Script.

(** ** Vocabulary of the statements *)

(** [needle] occurs in [hay]. *)
Definition occurs_in (needle hay : string) : Prop :=
  ∃ a b, hay = a +:+ needle +:+ b.

(** A stripped segment that carries the relation [next], in either
    quoting. *)
Definition rel_next_segment (seg : string) : Prop :=
  occurs_in rel_next_double seg ∨ occurs_in rel_next_single seg.

(** Every [<] of [pre] has [>] right behind it. *)
Definition only_empty_brackets (pre : string) : Prop :=
  ∀ a b, pre = a +:+ "<" +:+ b → ∃ b', b = ">" +:+ b'.

(** [g] is what stands between the first [<] of [seg] that opens a
    non-empty bracket and the next [>]. *)
Definition bracketed (seg g : string) : Prop :=
  ∃ pre post,
    seg = pre +:+ "<" +:+ g +:+ ">" +:+ post
    ∧ g ≠ EmptyString ∧ ¬ occurs_in ">" g ∧ only_empty_brackets pre.

(** The parsing rule as the specification words it: the first segment
    that carries [rel=next] is the one used, and the URL is what stands
    between its first [<] and the [>] after it. *)
Module SpecWording.

Fixpoint after_first_lt (s : string) : option string :=
  match s with
  | EmptyString => None
  | String c r => if Ascii.eqb c "<" then Some r else after_first_lt r
  end.

Fixpoint up_to_gt (s : string) : option string :=
  match s with
  | EmptyString => None
  | String c r => if Ascii.eqb c ">" then Some EmptyString else String c <$> up_to_gt r
  end.

Definition between_first_angles (seg : string) : option string :=
  after_first_lt seg ≫= up_to_gt.

Definition first_rel_next_segment (h : string) : option string :=
  List.find has_rel_next (PyStr.strip <$> PyStr.split "," h).

Definition parse_link_header (h : string) : option string :=
  first_rel_next_segment h ≫= between_first_angles.

End SpecWording.

(** A header whose first [rel=next] segment has no bracket at all. *)
Definition header_with_bare_rel : string :=
  rel_next_double +:+ ", <http://b>; " +:+ rel_next_double.

(** The header of the specification's example. *)
Definition header_cursor_2 : string :=
  "<https://x/y?cursor=2>; " +:+ rel_next_double.

(** The columns copied from the record itself, and the two taken from its
    nested [serviceData]. *)
Definition TOP_LEVEL_FIELDS : list string := take 13 CSV_FIELDNAMES.
Definition NESTED_FIELDS : list string := drop 13 CSV_FIELDNAMES.

(** The [serviceData] of a record is absent, falsy, or a mapping. *)
Definition service_data_usable (item : gmap string JSON) : Prop :=
  match item !! "serviceData" with
  | None => True
  | Some v => Py.truthy v = false ∨ ∃ m, v = JObj m
  end.

(** The nested mapping the two flattened columns are read from. *)
Definition nested_service_data (item : gmap string JSON) : gmap string JSON :=
  match item !! "serviceData" with
  | Some (JObj m) => m
  | _ => ∅
  end.

(** The row of a usable record: each top-level column from the record,
    the last two from its nested mapping, the empty string for what is
    missing. *)
Definition expected_row (item : gmap string JSON) : gmap string JSON :=
  list_to_map
    (((λ key, (key, default (JStr EmptyString) (item !! key))) <$> TOP_LEVEL_FIELDS)
     ++ ((λ key, (key, default (JStr EmptyString) (nested_service_data item !! key)))
           <$> NESTED_FIELDS)).

(** A record whose [serviceData] is a non-empty string. *)
Definition record_with_text_service_data : gmap string JSON :=
  {[ "id" := JStr "r1"; "serviceData" := JStr "abc" ]}.

(** *** Responses, as the statements classify them *)

(** The event a GET of [url] leaves in the trace. *)
Definition get_event (has_requests : bool) (url token : string) : Event :=
  if has_requests then EvSessionGet url token else EvUrlopen url token.

(** The status lets the body through: not 429, and not an error status
    for the client in use. *)
Definition status_ok (has_requests : bool) (r : Response) : bool :=
  negb (status_code r =? 429)%Z &&
  (if has_requests
   then negb ((400 <=? status_code r) && (status_code r <? 600))
   else (200 <=? status_code r) && (status_code r <? 300)).

(** The list under the key [items] of the body, when there is one. *)
Definition page_items (r : Response) : option (list JSON) :=
  match body r with
  | Some (JObj m) =>
      match m !! "items" with
      | Some (JList items) => Some items
      | _ => None
      end
  | _ => None
  end.

(** A successful page response: it is fetched without error and its body
    holds a list of items. *)
Definition is_page (has_requests : bool) (r : Response) : Prop :=
  status_ok has_requests r = true ∧ is_Some (page_items r).

Definition items_of (r : Response) : list JSON := default [] (page_items r).

(** The next-page URL a response provides, if any: the [Link] header, as
    the client in use reads it, parses to a non-empty URL. *)
Definition following (has_requests : bool) (r : Response) : option string :=
  match parse_link_header (default EmptyString (headers_get has_requests r "link")) with
  | Some next => if PyStr.truthy next then Some next else None
  | None => None
  end.

(** The URLs the driver requests while it walks [pages] from [url]. *)
Fixpoint requested (has_requests : bool) (url : string) (pages : list Response)
  : list string :=
  match pages with
  | [] => []
  | r :: rest =>
      url :: requested has_requests (default url (following has_requests r)) rest
  end.

(** The URL the driver holds after [pages]. *)
Definition url_after (has_requests : bool) (url : string) (pages : list Response) : string :=
  foldl (λ u r, default u (following has_requests r)) url pages.

(** An item the row mapper accepts. *)
Definition is_record (item : JSON) : Prop :=
  ∃ m, item = JObj m ∧ service_data_usable m.

(** The cells the row mapper and the writer make of an item. *)
Definition cells_of (item : JSON) : list JSON :=
  match _item_to_row item with
  | Ok row => dict_to_cells row
  | Err _ => []
  end.

(** What stops the writer at an item, if anything: the exception of the row
    mapper, or the one that writing the row raises. *)
Definition row_error (raises : list JSON → option exn) (item : JSON) : option exn :=
  match _item_to_row item with
  | Err e => Some e
  | Ok row => raises (dict_to_cells row)
  end.

(** An item the writer gets into the file. *)
Definition writes (raises : list JSON → option exn) (item : JSON) : Prop :=
  row_error raises item = None.

(** The events of a complete write of [items] to [path]. *)
Definition written_file (path : string) (items : list JSON) : Trace :=
  EvOpenW path :: EvWriteHeader CSV_FIELDNAMES :: (EvWriteRow ∘ cells_of <$> items).

(** The event touches the output file. *)
Definition file_event (ev : Event) : bool :=
  match ev with
  | EvOpenW _ | EvWriteHeader _ | EvWriteRow _ => true
  | _ => false
  end.

Definition is_get (ev : Event) : bool :=
  match ev with
  | EvSessionGet _ _ | EvUrlopen _ _ => true
  | _ => false
  end.

(** A response with status 429. *)
Definition rate_limited (r : Response) : Prop := status_code r = 429.

(** The wait the fetcher attaches to a 429 response. *)
Definition wait_of (has_requests : bool) (r : Response) : Z :=
  retry_wait_sec (headers_get has_requests r "retry-after").

(** The events of one rate-limited round: the GET, the notice, the sleep. *)
Definition backoff_round (has_requests : bool) (url token : string) (r : Response) : Trace :=
  [get_event has_requests url token;
   EvStderr (MsgRateLimitWait (wait_of has_requests r));
   EvSleep (wait_of has_requests r)].

(** A 429 response with the given [Retry-After] value. *)
Definition response_429 (retry_after : string) : Response :=
  mk_response 429 [("retry-after", retry_after)] None.

(** *** Runs, as the statements read them *)

Definition is_open (ev : Event) : bool :=
  match ev with EvOpenW _ => true | _ => false end.

Definition is_sleep (ev : Event) : bool :=
  match ev with EvSleep _ => true | _ => false end.

(** An event the pagination loop can leave with the given client. *)
Definition loop_event (has_requests : bool) (ev : Event) : Prop :=
  match ev with
  | EvSessionGet _ _ => has_requests = true
  | EvUrlopen _ _ => has_requests = false
  | EvSleep _ | EvStderr _ => True
  | _ => False
  end.

(** The pagination loop of a run, when the query window can be computed. *)
Definition loop_of (has_requests : bool) (w : World) (token : string)
  : option (Trace * LoopExit) :=
  match _past_30_days_iso (now w) with
  | Ok (from_iso, to_iso) =>
      Some (paginate has_requests token (answers w) (initial_url from_iso to_iso) [] 0)
  | Err _ => None
  end.

(** How [main] ends on an outcome of the driver. *)
Definition exit_of (o : Outcome) : ProcessExit :=
  match o with
  | Returned _ => Exited 0
  | Raised (SystemExit code) => Exited code
  | Raised _ => Exited 1
  | Waiting => Blocked
  end.

(** A blank string: nothing but characters [str.strip] removes. *)
Fixpoint all_space (s : string) : bool :=
  match s with
  | EmptyString => true
  | String c r => PyStr.isspace c && all_space r
  end.

(** The string neither starts nor ends with a blank. *)
Definition head_not_space (s : string) : Prop :=
  match s with
  | EmptyString => True
  | String c _ => PyStr.isspace c = false
  end.

Fixpoint last_not_space (s : string) : Prop :=
  match s with
  | EmptyString => True
  | String c EmptyString => PyStr.isspace c = false
  | String _ r => last_not_space r
  end.

(** A run that stops before the credential is given. *)
Definition world_no_token : World :=
  mk_world (Calendar.mk_datetime 2026 11 4 12 0 0 0) InputEOF [] true Csv.writerow_error.

(** *** Sample inputs *)

(** A page response: status 200, the given items, and a [Link] header
    that names [next] as the next page when one is given. *)
Definition page (items : list JSON) (next : option string) : Response :=
  mk_response 200
    match next with
    | Some u => [("link", "<" +:+ u +:+ ">; " +:+ rel_next_double)]
    | None => []
    end
    (Some (JObj {[ "items" := JList items ]})).

Definition recording (id : string) : JSON := JObj {[ "id" := JStr id ]}.

Definition noon : Calendar.datetime := Calendar.mk_datetime 2026 11 4 12 0 0 0.

Definition noon_url : string :=
  "https://webexapis.com/v1/admin/convergedRecordings"
  +:+ "?from=2026-10-05T12%3A00%3A00Z&to=2026-11-04T12%3A00%3A00Z&max=100".

(** Three pages of 2, 2 and 1 items; the last has no [Link] header. *)
Definition three_pages : list Response :=
  [ page [recording "a"; recording "b"] (Some "https://x/p2");
    page [recording "c"; recording "d"] (Some "https://x/p3") ].
Definition third_page : Response := page [recording "e"] None.

Definition three_page_world : World :=
  mk_world noon (InputLine "secret") (Answer <$> three_pages ++ [third_page]) true
    Csv.writerow_error.

(** A single page whose only item carries a text under [serviceData]. *)
Definition text_service_data_page : Response :=
  page [JObj record_with_text_service_data] None.

Definition world_text_service_data : World :=
  mk_world noon (InputLine "secret") [Answer text_service_data_page] true
    Csv.writerow_error.

(** A 200 response whose body has no [items] key, after one good page. *)
Definition world_missing_items : World :=
  mk_world noon (InputLine "secret")
    [ Answer (page [recording "a"; recording "b"] (Some "https://x/p2"));
      Answer (mk_response 200 [] (Some (JObj {[ "message" := JStr "ok" ]})));
      Answer third_page ] true Csv.writerow_error.

(** One 429 with [Retry-After: -5], then a page that would end the run. *)
Definition world_negative_retry_after : World :=
  mk_world noon (InputLine "secret")
    [ Answer (response_429 "-5"); Answer third_page ] true Csv.writerow_error.

(** Ten 429 responses with [Retry-After: 1], and an eleventh. *)
Definition ten_429 : list Response := replicate 10 (response_429 "1").

Definition world_eleven_429 : World :=
  mk_world noon (InputLine "secret")
    ((Answer <$> ten_429) ++ [Answer (response_429 "1"); Answer third_page]) true
    Csv.writerow_error.

(** *** Dates, as the statements read them *)

(** A date and time [datetime] can hold. *)
Definition valid_datetime (dt : Calendar.datetime) : Prop :=
  1 ≤ Calendar.year dt ≤ 9999
  ∧ 1 ≤ Calendar.month dt ≤ 12
  ∧ 1 ≤ Calendar.day dt ≤ Calendar._days_in_month (Calendar.year dt) (Calendar.month dt)
  ∧ 0 ≤ Calendar.hour dt < 24
  ∧ 0 ≤ Calendar.minute dt < 60
  ∧ 0 ≤ Calendar.second dt < 60
  ∧ 0 ≤ Calendar.microsecond dt < 1000000.

(** Seconds from the start of day 0 of the proleptic calendar. *)
Definition seconds_of (dt : Calendar.datetime) : Z :=
  Calendar.toordinal dt * 86400
  + Calendar.hour dt * 3600 + Calendar.minute dt * 60 + Calendar.second dt.

(** Month and day of the [n]th day (from 0) of a year: the last steps of
    [_ord2ymd]. *)
Definition month_day (n : Z) (leapyear : bool) : Z * Z :=
  let month := Z.shiftr (n + 50) 5 in
  let preceding :=
    Calendar.table Calendar._DAYS_BEFORE_MONTH month + Z.b2z ((2 <? month) && leapyear) in
  if (n <? preceding)%Z then
    let month := month - 1 in
    let preceding :=
      preceding - (Calendar.table Calendar._DAYS_IN_MONTH month
                   + Z.b2z ((month =? 2)%Z && leapyear)) in
    (month, n - preceding + 1)
  else (month, n - preceding + 1).

Definition month_day_ok (leapyear : bool) (n : Z) : bool :=
  let '(m, d) := month_day n leapyear in
  (1 <=? m) && (m <=? 12) && (1 <=? d)
  && (d <=? (if (m =? 2)%Z && leapyear then 29 else Calendar.table Calendar._DAYS_IN_MONTH m))
  && (Calendar.table Calendar._DAYS_BEFORE_MONTH m + Z.b2z ((2 <? m) && leapyear) + d
      =? n + 1)%Z.

(** An ISO timestamp as [quote_plus] leaves it: the colons escaped. *)
Definition iso_escaped (dt : Calendar.datetime) : string :=
  Calendar.four_digits (Calendar.year dt) +:+ "-" +:+ Calendar.two_digits (Calendar.month dt)
  +:+ "-" +:+ Calendar.two_digits (Calendar.day dt)
  +:+ "T" +:+ Calendar.two_digits (Calendar.hour dt)
  +:+ "%3A" +:+ Calendar.two_digits (Calendar.minute dt)
  +:+ "%3A" +:+ Calendar.two_digits (Calendar.second dt) +:+ "Z".

(** The decimal numeral whose digits are [ds] (each taken modulo 10), and
    the number it denotes after the digits already read as [acc]. *)
Fixpoint numeral (ds : list Z) : string :=
  match ds with
  | [] => EmptyString
  | d :: rest => String (Calendar.digit_char d) (numeral rest)
  end.

Fixpoint numeral_value (acc : Z) (ds : list Z) : Z :=
  match ds with
  | [] => acc
  | d :: rest => numeral_value (10 * acc + d mod 10) rest
  end.

(** *** Further vocabulary: failures, counts, provenance *)

(** The exception a GET ends in when its answer is neither a page nor a
    rate-limit signal: no connection, an error status for the client in
    use, or a body that is not JSON. *)
Definition failure_of (has_requests : bool) (a : NetResult) : option exn :=
  match a with
  | Unreachable => Some ConnectionError
  | Answer r =>
      if (status_code r =? 429)%Z then None
      else if negb (status_ok has_requests r) then Some (HTTPError (status_code r))
      else match body r with
           | Some _ => None
           | None => Some JSONDecodeError
           end
  end.

(** The message the driver prints for a failed fetch. *)
Definition failure_message (has_requests : bool) (e : exn) : Msg :=
  if has_requests && has_response e then MsgApiError e else MsgRequestError e.

Definition is_row (ev : Event) : bool :=
  match ev with EvWriteRow _ => true | _ => false end.

Definition is_header (ev : Event) : bool :=
  match ev with EvWriteHeader _ => true | _ => false end.

(** The lengths of the sleeps of a trace, and the URL and token of each
    call of the HTTP client in it, in order. *)
Definition sleeps (t : Trace) : list Z :=
  omap (λ ev, match ev with EvSleep s => Some s | _ => None end) t.

Definition gets (t : Trace) : list (string * string) :=
  omap (λ ev, match ev with
              | EvSessionGet u k | EvUrlopen u k => Some (u, k)
              | _ => None
              end) t.

(** The loop has left: by [break] or by an exception. *)
Definition terminal (exit : LoopExit) : Prop :=
  match exit with Starved _ _ _ => False | _ => True end.

Definition is_stderr (ev : Event) : bool :=
  match ev with EvStderr _ => true | _ => false end.

(** The status lies in 200..299 or in 400..599. *)
Definition status_2xx_4xx_5xx (r : Response) : bool :=
  (200 <=? status_code r) && (status_code r <? 300)
  || (400 <=? status_code r) && (status_code r <? 600).

(** A world whose second answer is a 503 after one good page. *)
Definition world_503 : World :=
  mk_world (Calendar.mk_datetime 2026 11 4 12 0 0 0) (InputLine "secret")
    [ Answer (mk_response 200
                [("link", "<https://x/p2>; " +:+ rel_next_double)]
                (Some (JObj {[ "items" := JList [JObj {[ "id" := JStr "a" ]}] ]})));
      Answer (mk_response 503 [] None);
      Answer (mk_response 200 [] (Some (JObj {[ "items" := JList [] ]}))) ] true
    Csv.writerow_error.

(** Where a requested URL may come from: the initial URL of the run, or
    the [Link] header of one of the answers. *)
Definition url_source (has_requests : bool) (w : World) (u : string) : Prop :=
  (∃ from_iso to_iso,
      _past_30_days_iso (now w) = Ok (from_iso, to_iso) ∧ u = initial_url from_iso to_iso)
  ∨ (∃ r, Answer r ∈ answers w ∧ following has_requests r = Some u).

(** One page whose second item is a string, not a record. *)
Definition world_bad_item : World :=
  mk_world (Calendar.mk_datetime 2026 11 4 12 0 0 0) (InputLine "secret")
    [ Answer (mk_response 200 []
                (Some (JObj {[ "items" :=
                   JList [JObj {[ "id" := JStr "a" ]}; JStr "x"; JObj {[ "id" := JStr "b" ]}] ]}))) ]
    true Csv.writerow_error.

(** The source of each column of a record: the record itself, or its
    nested [serviceData] for the last two. *)
Definition column_value (item : gmap string JSON) (key : string) : JSON :=
  if bool_decide (key ∈ NESTED_FIELDS)
  then default (JStr EmptyString) (nested_service_data item !! key)
  else default (JStr EmptyString) (item !! key).

(** One link of a [Link] header: the target in angle brackets, then its
    relation. *)
Definition link_value (u rel : string) : string :=
  "<" +:+ u +:+ ">; rel=" +:+ PyStr.dquote +:+ rel +:+ PyStr.dquote.

(** A header with a previous-page link, then the next-page link. *)
Definition header_prev_next : string :=
  link_value "https://x/p1" "prev" +:+ ", " +:+ link_value "https://x/p3" "next".

(** A header whose only link is a previous-page link. *)
Definition header_prev_only : string := link_value "https://x/p1" "prev".

(** The field comes on one line at most. *)
Definition single_line (r : Response) (name : string) : Prop :=
  (length (header_lines r name) ≤ 1)%nat.

(** An empty page whose two links come on two [Link] lines. *)
Definition page_two_link_lines : Response :=
  mk_response 200
    [("link", link_value "https://x/p1" "prev"); ("link", link_value "https://x/p3" "next")]
    (Some (JObj {[ "items" := JList [] ]})).

(** The characters an integer literal can be made of: blanks, digits,
    the two signs and the underscore. *)
Definition int_char (c : ascii) : bool :=
  PyInt.is_blank c
  || match PyInt.digit_val c with Some _ => true | None => false end
  || Ascii.eqb c "+" || Ascii.eqb c "-" || Ascii.eqb c "_".

Fixpoint all_chars (P : ascii → bool) (s : string) : bool :=
  match s with
  | EmptyString => true
  | String c r => P c && all_chars P r
  end.

(** A [Retry-After] value in its HTTP-date form. *)
Definition retry_after_date : string := "Wed, 21 Oct 2015 07:28:00 GMT".

(** The responses among [answers] that are not rate-limit signals. *)
Definition pages_of (answers : list NetResult) : list Response :=
  omap (λ a, match a with
             | Answer r => if (status_code r =? 429)%Z then None else Some r
             | Unreachable => None
             end) answers.

(** A first page, a 429 on the request of the second, then the second. *)
Definition world_retry_between_pages : World :=
  mk_world (Calendar.mk_datetime 2026 11 4 12 0 0 0) (InputLine "secret")
    [ Answer (mk_response 200
                [("link", "<https://x/p2>; " +:+ rel_next_double)]
                (Some (JObj {[ "items" := JList [JObj {[ "id" := JStr "a" ]}] ]})));
      Answer (mk_response 429 [("retry-after", "1")] None);
      Answer (mk_response 200 []
                (Some (JObj {[ "items" := JList [JObj {[ "id" := JStr "b" ]}] ]}))) ] true
    Csv.writerow_error.

(** * Properties *)

(** ** Strings *)

Lemma str_app_cons c (a b : string) : String c a +:+ b = String c (a +:+ b).
Proof. reflexivity. Qed.

Lemma str_app_nil_l (s : string) : EmptyString +:+ s = s.
Proof. reflexivity. Qed.

Lemma str_app_nil_r (s : string) : s +:+ EmptyString = s.
Proof. induction s as [|c s IH]; [done|]. by rewrite str_app_cons, IH. Qed.

Lemma str_app_assoc (a b c : string) : (a +:+ b) +:+ c = a +:+ b +:+ c.
Proof. induction a as [|x a IH]; [done|]. by rewrite !str_app_cons, IH. Qed.

Lemma prefix_spec (n h : string) :
  String.prefix n h = true ↔ ∃ b, h = n +:+ b.
Proof.
  revert h. induction n as [|c n IH]; intros h.
  - destruct h; simpl; split; eauto.
  - destruct h as [|d h]; simpl.
    + split; [done|]. by intros [b Hb].
    + destruct (ascii_dec c d) as [->|Hne].
      * rewrite IH. split; intros [b Hb]; exists b.
        -- by rewrite str_app_cons, <- Hb.
        -- rewrite str_app_cons in Hb. by simplify_eq.
      * split; [done|]. intros [b Hb]. rewrite str_app_cons in Hb. by simplify_eq.
Qed.

Lemma contains_spec (needle hay : string) :
  PyStr.contains needle hay = true ↔ occurs_in needle hay.
Proof.
  induction hay as [|c hay IH].
  - cbn [PyStr.contains]. rewrite orb_false_r, prefix_spec. split.
    + intros [b Hb]. by exists EmptyString, b.
    + intros ([|x a] & b & Hab); [by exists b|]. by rewrite str_app_cons in Hab.
  - cbn [PyStr.contains]. rewrite orb_true_iff, prefix_spec, IH. split.
    + intros [[b Hb]|(a & b & Hab)].
      * by exists EmptyString, b.
      * exists (String c a), b. by rewrite str_app_cons, <- Hab.
    + intros ([|x a] & b & Hab).
      * left. by exists b.
      * right. rewrite str_app_cons in Hab. simplify_eq. by exists a, b.
Qed.

Lemma has_rel_next_spec (seg : string) :
  has_rel_next seg = true ↔ rel_next_segment seg.
Proof.
  unfold has_rel_next, rel_next_segment.
  by rewrite orb_true_iff, !contains_spec.
Qed.

(** ** The bracket search *)

Lemma not_gt_cons c (g : string) :
  ¬ occurs_in ">" (String c g) ↔ c ≠ ">"%char ∧ ¬ occurs_in ">" g.
Proof.
  split.
  - intros Hno. split.
    + intros ->. apply Hno. by exists EmptyString, g.
    + intros (a & b & ->). apply Hno. by exists (String c a), b.
  - intros [Hc Hg] ([|x a] & b & Hab).
    + rewrite str_app_nil_l, str_app_cons in Hab. by simplify_eq.
    + rewrite str_app_cons in Hab. simplify_eq. apply Hg. by exists a, b.
Qed.

Lemma span_not_gt_spec (s run tail : string) :
  Re.span_not_gt s = (run, tail) ↔
  s = run +:+ tail ∧ ¬ occurs_in ">" run
  ∧ (tail = EmptyString ∨ ∃ t, tail = String ">" t).
Proof.
  revert run tail. induction s as [|c s IH]; intros run tail; cbn [Re.span_not_gt].
  - split.
    + intros [= <- <-]. split_and!; [done| |by left].
      by intros ([|??] & ? & ?).
    + intros (Hs & _ & _). destruct run; [|done].
      rewrite str_app_nil_l in Hs. by subst.
  - destruct (Ascii.eqb_spec c ">") as [->|Hc].
    + split.
      * intros [= <- <-]. split_and!; [done| |right; eauto].
        by intros ([|??] & ? & ?).
      * intros (Hs & Hno & _). destruct run as [|x run].
        -- rewrite str_app_nil_l in Hs. by subst.
        -- rewrite str_app_cons in Hs. simplify_eq.
           apply not_gt_cons in Hno as [? _]. done.
    + destruct (Re.span_not_gt s) as [run' tail'] eqn:Hspan.
      split.
      * intros [= <- <-]. destruct (IH run' tail') as [IH1 _].
        destruct (IH1 eq_refl) as (-> & Hno & Htail).
        split_and!; [done| |done]. by apply not_gt_cons.
      * intros (Hs & Hno & Htail). destruct run as [|x run].
        -- rewrite str_app_nil_l in Hs. destruct Htail as [->|[t ->]]; [done|].
           by simplify_eq.
        -- rewrite str_app_cons in Hs. simplify_eq.
           apply not_gt_cons in Hno as [_ Hno].
           assert ((run', tail') = (run, tail)) as Heq by (apply IH; done).
           congruence.
Qed.

Lemma match_here_spec (s g : string) :
  Re.match_here s = Some g ↔
  ∃ post, s = "<" +:+ g +:+ ">" +:+ post ∧ g ≠ EmptyString ∧ ¬ occurs_in ">" g.
Proof.
  split.
  - unfold Re.match_here. intros Hm.
    destruct s as [|c r]; [done|].
    destruct (Ascii.eqb_spec c "<") as [->|Hc].
    + destruct (Re.span_not_gt r) as [run tail] eqn:Hspan.
      apply span_not_gt_spec in Hspan as (-> & Hno & _).
      destruct run as [|x run]; [done|].
      destruct tail as [|y tail]; [done|].
      destruct (Ascii.eqb_spec y ">") as [->|Hy].
      * simplify_eq. exists tail. split_and!; [reflexivity|done|done].
      * exfalso. revert Hm. clear -Hy.
        destruct y as [[] [] [] [] [] [] [] []]; try done.
    + exfalso. revert Hm. clear -Hc.
      destruct c as [[] [] [] [] [] [] [] []]; try done.
  - intros (post & -> & Hg & Hno).
    rewrite str_app_cons, str_app_nil_l. cbn [Re.match_here].
    assert (Re.span_not_gt (g +:+ ">" +:+ post) = (g, String ">" post)) as ->.
    { apply span_not_gt_spec. split_and!; [done|done|right; eauto]. }
    by destruct g.
Qed.

Lemma search_cons c (r : string) :
  Re.search (String c r) =
  match Re.match_here (String c r) with
  | Some g => Some g
  | None => Re.search r
  end.
Proof. reflexivity. Qed.

Lemma match_here_none_head c (r : string) :
  c ≠ "<"%char → Re.match_here (String c r) = None.
Proof.
  intros Hc. destruct (Re.match_here (String c r)) as [g|] eqn:Hm; [|done].
  apply match_here_spec in Hm as (post & Hs & _).
  rewrite str_app_cons in Hs. by simplify_eq.
Qed.

(** A bracket that opens on a character other than [>] and is closed
    further on does match. *)
Lemma match_here_some c (r a b : string) :
  c ≠ ">"%char → r = a +:+ ">" +:+ b →
  ∃ g, Re.match_here (String "<" (String c r)) = Some g.
Proof.
  intros Hc Hr. cbn [Re.match_here Re.span_not_gt].
  destruct (Ascii.eqb_spec c ">") as [|_]; [done|].
  destruct (Re.span_not_gt r) as [run tail] eqn:Hspan.
  apply span_not_gt_spec in Hspan as (Hs & Hno & Htail).
  destruct Htail as [->|[t ->]].
  - rewrite str_app_nil_r in Hs. subst run. destruct Hno. by exists a, b.
  - eauto.
Qed.

Lemma only_empty_brackets_nil : only_empty_brackets EmptyString.
Proof. by intros [|??] ? ?. Qed.

Lemma only_empty_brackets_tail c (pre : string) :
  only_empty_brackets (String c pre) → only_empty_brackets pre.
Proof. intros H a b ->. by apply (H (String c a) b). Qed.

Lemma search_spec (s g : string) : Re.search s = Some g ↔ bracketed s g.
Proof.
  split.
  - revert g. induction s as [|c r IH]; intros g; [done|].
    rewrite search_cons.
    destruct (Re.match_here (String c r)) as [g0|] eqn:Hm.
    + intros [= ->]. apply match_here_spec in Hm as (post & Hs & Hg & Hno).
      exists EmptyString, post. split_and!; auto using only_empty_brackets_nil.
    + intros Hr. destruct (IH _ Hr) as (pre & post & -> & Hg & Hno & Hpre).
      exists (String c pre), post. split_and!; [done..|].
      intros [|x a] b Hab.
      * rewrite str_app_nil_l, str_app_cons, str_app_nil_l in Hab. simplify_eq.
        destruct b as [|y b].
        { edestruct (match_here_some "<" (g +:+ ">" +:+ post) g post) as [g1 Hg1]; [done..|].
          rewrite str_app_nil_l, str_app_cons, str_app_nil_l in Hm. congruence. }
        destruct (decide (y = ">"%char)) as [->|Hy]; [by eexists|].
        edestruct (match_here_some y (b +:+ "<" +:+ g +:+ ">" +:+ post)
                     (b +:+ "<" +:+ g) post) as [g1 Hg1]; [done| |].
        { by rewrite !str_app_assoc. }
        rewrite str_app_cons in Hm. congruence.
      * rewrite str_app_cons in Hab. simplify_eq. by apply (Hpre a b).
  - intros (pre & post & -> & Hg & Hno & Hpre).
    induction pre as [|c pre IH].
    + rewrite str_app_nil_l.
      assert (Re.match_here ("<" +:+ g +:+ ">" +:+ post) = Some g) as Hm.
      { apply match_here_spec. eauto. }
      rewrite str_app_cons, str_app_nil_l in *. by rewrite search_cons, Hm.
    + rewrite str_app_cons, search_cons.
      assert (Re.match_here (String c (pre +:+ "<" +:+ g +:+ ">" +:+ post)) = None) as ->.
      { destruct (decide (c = "<"%char)) as [->|Hc]; [|by apply match_here_none_head].
        destruct (Hpre EmptyString pre) as [b' ->]; [done|].
        by rewrite str_app_cons, str_app_nil_l. }
      apply IH. by eapply only_empty_brackets_tail.
Qed.

(** ** The loop over the segments *)

Lemma parse_link_parts_spec (parts : list string) (u : string) :
  parse_link_parts parts = Some u ↔
  ∃ before seg later g,
    PyStr.strip <$> parts = before ++ seg :: later
    ∧ rel_next_segment seg ∧ bracketed seg g ∧ u = PyStr.strip g
    ∧ Forall (λ s, ¬ (rel_next_segment s ∧ ∃ g', bracketed s g')) before.
Proof.
  induction parts as [|part rest IH]; cbn [parse_link_parts].
  - split; [done|]. intros (before & ? & ? & ? & Heq & _). by destruct before.
  - destruct (has_rel_next (PyStr.strip part)) eqn:Hrel.
    + destruct (Re.search (PyStr.strip part)) as [g0|] eqn:Hsearch.
      * split.
        -- intros [= <-]. exists [], (PyStr.strip part), (PyStr.strip <$> rest), g0.
           split_and!; [done| | |done|constructor].
           ++ by apply has_rel_next_spec.
           ++ by apply search_spec.
        -- intros ([|s before] & seg & later & g & Heq & Hseg & Hg & -> & Hbefore).
           ++ simplify_eq/=. apply search_spec in Hg. congruence.
           ++ simplify_eq/=. apply Forall_cons in Hbefore as [Hs _].
              destruct Hs. split; [by apply has_rel_next_spec|].
              exists g0. by apply search_spec.
      * rewrite IH. split.
        -- intros (before & seg & later & g & Heq & Hseg & Hg & -> & Hbefore).
           exists (PyStr.strip part :: before), seg, later, g.
           split_and!; [by rewrite fmap_cons, Heq|done..|].
           constructor; [|done]. intros [_ [g' Hg']].
           apply search_spec in Hg'. congruence.
        -- intros ([|s before] & seg & later & g & Heq & Hseg & Hg & -> & Hbefore).
           ++ simplify_eq/=. apply search_spec in Hg. congruence.
           ++ simplify_eq/=. apply Forall_cons in Hbefore as [_ Hbefore].
              by exists before, seg, later, g.
    + rewrite IH. split.
      * intros (before & seg & later & g & Heq & Hseg & Hg & -> & Hbefore).
        exists (PyStr.strip part :: before), seg, later, g.
        split_and!; [by rewrite fmap_cons, Heq|done..|].
        constructor; [|done]. intros [Hrel' _].
        apply has_rel_next_spec in Hrel'. congruence.
      * intros ([|s before] & seg & later & g & Heq & Hseg & Hg & -> & Hbefore).
        -- simplify_eq/=. apply has_rel_next_spec in Hseg. congruence.
        -- simplify_eq/=. apply Forall_cons in Hbefore as [_ Hbefore].
           by exists before, seg, later, g.
Qed.

Lemma split_cons_ne sep c (s : string) :
  c ≠ sep →
  ∃ p ps, PyStr.split sep s = p :: ps ∧ PyStr.split sep (String c s) = String c p :: ps.
Proof.
  intros Hc. cbn [PyStr.split].
  destruct (Ascii.eqb_spec c sep) as [|_]; [done|].
  destruct s as [|d s]; cbn [PyStr.split]; [by eexists _, _|].
  destruct (Ascii.eqb d sep); [by eexists _, _|].
  destruct (PyStr.split sep s); by eexists _, _.
Qed.

(** [split] cuts at every separator and nowhere else. *)
Lemma split_join sep (s : string) :
  Url.join (String sep EmptyString) (PyStr.split sep s) = s
  ∧ Forall (λ p, ¬ occurs_in (String sep EmptyString) p) (PyStr.split sep s).
Proof.
  assert (Hnil : ¬ occurs_in (String sep EmptyString) EmptyString).
  { by intros ([|??] & ? & ?). }
  induction s as [|c s [IHj IHf]].
  - split; [done|]. by constructor.
  - destruct (decide (c = sep)) as [->|Hc].
    + cbn [PyStr.split]. rewrite Ascii.eqb_refl. split.
      * destruct (PyStr.split sep s) as [|p ps] eqn:Hs.
        { by destruct s; simplify_eq/=; repeat case_match. }
        change (Url.join (String sep EmptyString) (EmptyString :: p :: ps))
          with (EmptyString +:+ String sep EmptyString
                +:+ Url.join (String sep EmptyString) (p :: ps)).
        by rewrite IHj.
      * by constructor.
    + destruct (split_cons_ne sep c s Hc) as (p & ps & Hs & ->).
      rewrite Hs in IHj, IHf. apply Forall_cons in IHf as [Hp Hps]. split.
      * rewrite <- IHj. by destruct ps.
      * constructor; [|done]. intros ([|x a] & b & Hab).
        -- rewrite str_app_nil_l, str_app_cons in Hab. by simplify_eq.
        -- rewrite str_app_cons in Hab. simplify_eq. apply Hp. by exists a, b.
Qed.

(** C6 (as amended).  The header is cut at its commas and each segment
    stripped.  The URL returned is taken from the first segment, in header
    order, that both carries [rel="next"] or [rel='next'] and holds a
    non-empty bracket: it is the text between the first [<] that opens such
    a bracket and the next [>], with the blanks around it removed.  A
    segment that carries the relation but no such bracket is passed over.
    The parser is total: it answers [None], never an error, and does so
    for the empty header.  On the header of the specification's example it
    answers [https://x/y?cursor=2]. *)
Theorem parse_link_header_first_bracketed_next (h : string) :
  (Url.join "," (PyStr.split "," h) = h
   ∧ Forall (λ p, ¬ occurs_in "," p) (PyStr.split "," h))
  ∧ (∀ u, parse_link_header h = Some u ↔
       ∃ before seg later g,
         PyStr.strip <$> PyStr.split "," h = before ++ seg :: later
         ∧ rel_next_segment seg ∧ bracketed seg g ∧ u = PyStr.strip g
         ∧ Forall (λ s, ¬ (rel_next_segment s ∧ ∃ g', bracketed s g')) before)
  ∧ parse_link_header EmptyString = None
  ∧ parse_link_header header_cursor_2 = Some "https://x/y?cursor=2".
Proof.
  split; [apply split_join|]. split; [|by vm_compute].
  intros u. unfold parse_link_header. destruct h as [|c h]; cbn [PyStr.truthy negb].
  - split; [done|].
    intros ([|? before] & seg & later & g & Heq & Hseg & _); simplify_eq/=.
    + apply has_rel_next_spec in Hseg. by vm_compute in Hseg.
    + by destruct before.
  - apply parse_link_parts_spec.
Qed.

(** C6, counterexample.  In [rel="next", <http://b>; rel="next"] the first
    segment that carries the relation is the bare [rel="next"], which holds
    no URL; the parser goes on to the second and answers [http://b]. *)
Lemma parse_link_header_passes_over_bare_rel :
  SpecWording.first_rel_next_segment header_with_bare_rel = Some rel_next_double
  ∧ SpecWording.between_first_angles rel_next_double = None
  ∧ parse_link_header header_with_bare_rel = Some "http://b"
  ∧ parse_link_header header_with_bare_rel
    ≠ SpecWording.parse_link_header header_with_bare_rel.
Proof. by vm_compute. Qed.

(** ** Row mapper *)

Lemma service_data_or_empty (item : gmap string JSON) :
  service_data_usable item →
  Py.or (default JNull (item !! "serviceData")) (JObj ∅)
  = JObj (nested_service_data item).
Proof.
  unfold service_data_usable, nested_service_data, Py.or.
  destruct (item !! "serviceData") as [v|]; [|done].
  intros [Hfalsy|[m ->]].
  - cbn [from_option id]. rewrite Hfalsy. destruct v; try done.
    cbn [Py.truthy] in Hfalsy. apply negb_false_iff, bool_decide_eq_true in Hfalsy.
    by subst.
  - cbn [from_option id Py.truthy]. case_bool_decide as Hm; [by subst|done].
Qed.

Lemma CSV_FIELDNAMES_distinct : length CSV_FIELDNAMES = 15%nat ∧ NoDup CSV_FIELDNAMES.
Proof. split; [done|]. apply (bool_decide_unpack _). by vm_compute. Qed.

(** What the row mapper computes on a usable record. *)
Lemma item_to_row_usable (item : gmap string JSON) :
  service_data_usable item →
  _item_to_row (JObj item) = Ok (expected_row item).
Proof.
  intros Husable. unfold _item_to_row.
  cbn [Py.get mbind result_bind mret result_ret].
  rewrite (service_data_or_empty _ Husable). cbn [Py.get]. reflexivity.
Qed.

(** C7 (as amended).  On every record whose [serviceData] is absent,
    falsy or itself a mapping, the row mapper succeeds; its row has exactly
    the 15 fixed columns; each of the 13 top-level columns holds the
    record's value for that key, copied as it is, or the empty string when
    the key is absent; and the two flattened columns hold the nested
    mapping's values, or the empty string. *)
Theorem item_to_row_fixed_columns (item : gmap string JSON) :
  service_data_usable item →
  ∃ row,
    _item_to_row (JObj item) = Ok row
    ∧ dom row = list_to_set CSV_FIELDNAMES
    ∧ size row = 15%nat
    ∧ (∀ key, key ∈ TOP_LEVEL_FIELDS →
         row !! key = Some (default (JStr EmptyString) (item !! key)))
    ∧ (∀ key, key ∈ NESTED_FIELDS →
         row !! key = Some (default (JStr EmptyString) (nested_service_data item !! key))).
Proof.
  intros Husable. exists (expected_row item).
  split; [by apply item_to_row_usable|]. unfold expected_row.
  split; [|split].
  - rewrite dom_list_to_map_L. reflexivity.
  - rewrite <- size_dom, dom_list_to_map_L.
    rewrite size_list_to_set; [done|]. apply CSV_FIELDNAMES_distinct.
  - split; intros key Hkey;
      repeat (apply elem_of_cons in Hkey as [->|Hkey]; [by vm_compute|]);
      by apply elem_of_nil in Hkey.
Qed.

(** A record with every field present satisfies the premise. *)
Lemma item_to_row_fixed_columns_witness :
  ∃ row,
    _item_to_row (JObj {[ "id" := JStr "r1"; "serviceData" := JObj {[ "locationId" := JStr "L" ]} ]})
    = Ok row
    ∧ row !! "id" = Some (JStr "r1")
    ∧ row !! "topic" = Some (JStr EmptyString)
    ∧ row !! "locationId" = Some (JStr "L").
Proof.
  destruct (item_to_row_fixed_columns
              {[ "id" := JStr "r1"; "serviceData" := JObj {[ "locationId" := JStr "L" ]} ]})
    as (row & Hrow & _ & _ & Htop & Hnested).
  { right. by eexists. }
  exists row. split; [done|].
  split; [|split].
  - rewrite (Htop "id"); [done|]. by vm_compute; left.
  - rewrite (Htop "topic"); [done|]. by vm_compute; right; left.
  - rewrite (Hnested "locationId"); [done|]. by vm_compute; left.
Defined.

(** C7, counterexample.  A record whose [serviceData] is the string
    ["abc"]: the string is truthy, so it is kept in place of the empty
    mapping, and looking [locationId] up in it fails. *)
Lemma item_to_row_fails_on_text_service_data :
  _item_to_row (JObj record_with_text_service_data) = Err AttributeError
  ∧ ¬ ∃ row, _item_to_row (JObj record_with_text_service_data) = Ok row.
Proof. split; [by vm_compute|]. intros [row Hrow]. by vm_compute in Hrow. Qed.

(** ** Page fetcher *)

Lemma py_int_empty : PyInt.py_int EmptyString = Err ValueError.
Proof. reflexivity. Qed.

Lemma retry_wait_sec_unfold (retry_after : option string) :
  retry_wait_sec retry_after =
  Z.min
    match retry_after with
    | Some s => match PyInt.py_int s with Ok n => n | Err _ => RETRY_AFTER_DEFAULT_SECONDS end
    | None => RETRY_AFTER_DEFAULT_SECONDS
    end
    RETRY_AFTER_CAP_SECONDS.
Proof.
  unfold retry_wait_sec. destruct retry_after as [[|c s]|]; [|done..].
  by rewrite py_int_empty.
Qed.

Lemma fetch_page_event (has_requests : bool) (url token : string) (answer : NetResult) :
  (fetch_page has_requests url token answer).1 = get_event has_requests url token.
Proof. by destruct has_requests. Qed.

Lemma fetch_page_429 (has_requests : bool) (url token : string) (r : Response) :
  rate_limited r →
  fetch_page has_requests url token (Answer r)
  = (get_event has_requests url token, Err (RateLimitError (wait_of has_requests r))).
Proof.
  unfold rate_limited, fetch_page, wait_of. intros ->. by destruct has_requests.
Qed.

Lemma fetch_page_ok (has_requests : bool) (url token : string) (r : Response) (data : JSON) :
  status_ok has_requests r = true → body r = Some data →
  fetch_page has_requests url token (Answer r)
  = (get_event has_requests url token,
     Ok (data, parse_link_header (default EmptyString (headers_get has_requests r "link")))).
Proof.
  unfold status_ok, fetch_page, raise_for_status, get_event.
  intros [H429 Hst]%andb_true_iff ->. apply negb_true_iff in H429. rewrite H429.
  destruct has_requests.
  - apply negb_true_iff in Hst. by rewrite Hst.
  - by rewrite Hst.
Qed.

(** Only a 429 response is turned into a rate-limit signal. *)
Lemma fetch_page_rate_limit_only_429 (has_requests : bool) (url token : string)
    (answer : NetResult) (wait : Z) :
  (fetch_page has_requests url token answer).2 = Err (RateLimitError wait) →
  ∃ r, answer = Answer r ∧ rate_limited r ∧ wait = wait_of has_requests r.
Proof.
  unfold fetch_page, rate_limited, wait_of, raise_for_status.
  destruct answer as [|r]; [by destruct has_requests|].
  intros Hf. exists r. split; [done|].
  destruct has_requests; cbn [snd] in Hf;
    destruct (Z.eqb_spec (status_code r) 429) as [->|Hne]; simplify_eq/=; try done;
    repeat case_match; simplify_eq/=.
Qed.

(** C3.  A response with status 429 makes the fetcher raise
    [RateLimitError], with either HTTP client; no other answer does.  The
    wait it carries is the [Retry-After] value when the header is present
    and [int] parses it, 60 otherwise, and in both cases at most 300: the
    smaller of that number and 300. *)
Theorem fetch_page_429_wait (has_requests : bool) (url token : string) (r : Response) :
  status_code r = 429 →
  ∃ wait,
    (fetch_page has_requests url token (Answer r)).2 = Err (RateLimitError wait)
    ∧ wait =
        Z.min
          match headers_get has_requests r "retry-after" with
          | Some s => match PyInt.py_int s with Ok n => n | Err _ => 60 end
          | None => 60
          end
          300
    ∧ wait ≤ 300
    ∧ (∀ e, (fetch_page has_requests url token (Answer r)).2 = Err e →
            e = RateLimitError wait ∧ e ≠ HTTPError 429).
Proof.
  intros H429. exists (wait_of has_requests r). rewrite fetch_page_429 by done.
  split; [done|]. split; [apply retry_wait_sec_unfold|]. split.
  - unfold wait_of. rewrite retry_wait_sec_unfold.
    unfold RETRY_AFTER_CAP_SECONDS. lia.
  - intros e [= <-]. done.
Qed.

(** A 429 with [Retry-After: 5] carries a wait of 5 seconds. *)
Lemma fetch_page_429_wait_witness :
  (fetch_page true "u" "t" (Answer (response_429 "5"))).2 = Err (RateLimitError 5).
Proof.
  destruct (fetch_page_429_wait true "u" "t" (response_429 "5") eq_refl)
    as (wait & Hfetch & Hwait & _).
  rewrite Hfetch, Hwait. by vm_compute.
Defined.

(** C9.  The wait of a 429 is bounded from above only: when the
    [Retry-After] value parses as a negative integer, the fetcher raises
    [RateLimitError] with that negative number as it is. *)
Theorem fetch_page_negative_wait_unchanged (has_requests : bool) (url token : string)
    (r : Response) (s : string) (n : Z) :
  status_code r = 429 →
  headers_get has_requests r "retry-after" = Some s →
  PyInt.py_int s = Ok n →
  n < 0 →
  (fetch_page has_requests url token (Answer r)).2 = Err (RateLimitError n).
Proof.
  intros H429 Hheader Hint Hneg. rewrite fetch_page_429 by done.
  unfold wait_of. rewrite retry_wait_sec_unfold, Hheader, Hint.
  unfold RETRY_AFTER_CAP_SECONDS. by rewrite Z.min_l by lia.
Qed.

(** [Retry-After: -5] gives a wait of -5 seconds. *)
Lemma fetch_page_negative_wait_unchanged_witness :
  (fetch_page true "u" "t" (Answer (response_429 "-5"))).2 = Err (RateLimitError (-5)).
Proof.
  apply (fetch_page_negative_wait_unchanged true "u" "t" (response_429 "-5") "-5" (-5)).
  - reflexivity.
  - by vm_compute.
  - by vm_compute.
  - lia.
Defined.

(** ** Pagination driver *)

Lemma after_app {A : Type} (evs1 evs2 : Trace) (k : Trace * A) :
  after evs1 (after evs2 k) = after (evs1 ++ evs2) k.
Proof. unfold after. cbn. by rewrite List.app_assoc. Qed.

Lemma after_nil {A : Type} (k : Trace * A) : after [] k = k.
Proof. by destruct k. Qed.

Section Driver.

Variable has_requests : bool.
Variable token : string.

Local Abbreviation paginate := (paginate has_requests token).
Local Abbreviation GET url := (get_event has_requests url token).

(** One iteration on a successful page. *)
Lemma paginate_page (r : Response) (rest : list NetResult)
    (url : string) (all_items : list JSON) (c : Z) :
  is_page has_requests r →
  paginate (Answer r :: rest) url all_items c =
  match following has_requests r with
  | Some next => after [GET url] (paginate rest next (all_items ++ items_of r) 0)
  | None => ([GET url], Broke (all_items ++ items_of r))
  end.
Proof.
  intros [Hst [items Hitems]]. unfold items_of, following. rewrite Hitems.
  unfold page_items in Hitems.
  destruct (body r) as [[| | | | | |m]|] eqn:Hbody; try done.
  cbn [paginate]. rewrite (fetch_page_ok _ _ _ _ _ Hst Hbody). cbn [Py.get].
  destruct (m !! "items") as [[]|]; simplify_eq/=.
  by destruct (parse_link_header _) as [next|]; [destruct (PyStr.truthy next)|].
Qed.

(** One iteration on a successful response without a list of items. *)
Lemma paginate_no_items (r : Response) (data : JSON) (rest : list NetResult)
    (url : string) (all_items : list JSON) (c : Z) :
  status_ok has_requests r = true → body r = Some data → page_items r = None →
  paginate (Answer r :: rest) url all_items c = ([GET url], Aborted AttributeError)
  ∨ paginate (Answer r :: rest) url all_items c
    = ([GET url; EvStderr MsgMissingItems], Aborted (SystemExit 1)).
Proof.
  intros Hst Hbody Hnone. cbn [paginate]. rewrite (fetch_page_ok _ _ _ _ _ Hst Hbody).
  unfold page_items in Hnone. rewrite Hbody in Hnone.
  destruct data as [| | | | | |m]; cbn [Py.get]; auto.
  right. destruct (m !! "items") as [[]|]; simplify_eq/=; done.
Qed.

(** One iteration on a 429. *)
Lemma paginate_429 (r : Response) (rest : list NetResult)
    (url : string) (all_items : list JSON) (c : Z) :
  rate_limited r →
  paginate (Answer r :: rest) url all_items c =
  if (MAX_429_RETRIES <? c + 1)%Z then
    ([GET url; EvStderr MsgRateLimitGiveUp], Aborted (SystemExit 1))
  else if (wait_of has_requests r <? 0)%Z then
    ([GET url; EvStderr (MsgRateLimitWait (wait_of has_requests r))], Aborted ValueError)
  else
    after (backoff_round has_requests url token r) (paginate rest url all_items (c + 1)).
Proof.
  intros H429. cbn [paginate]. rewrite (fetch_page_429 _ _ _ _ H429).
  destruct (MAX_429_RETRIES <? c + 1)%Z; [done|].
  unfold time_sleep. by destruct (wait_of has_requests r <? 0)%Z.
Qed.

(** The driver walks a run of pages that all provide a next URL, and is
    then about to request the last of these URLs. *)
Lemma paginate_pages (pages : list Response) (rest : list NetResult)
    (url : string) (all_items : list JSON) (c : Z) :
  Forall (is_page has_requests) pages →
  Forall (λ r, is_Some (following has_requests r)) pages →
  paginate ((Answer <$> pages) ++ rest) url all_items c =
  after ((λ u, GET u) <$> requested has_requests url pages)
    (paginate rest (url_after has_requests url pages) (all_items ++ concat (items_of <$> pages))
       (if pages is [] then c else 0)).
Proof.
  revert url all_items c.
  induction pages as [|r pages IH]; intros url all_items c Hpages Hnext.
  - cbn. by rewrite after_nil, List.app_nil_r.
  - apply Forall_cons in Hpages as [Hr Hpages].
    apply Forall_cons in Hnext as [[next Hnext_r] Hnext].
    rewrite fmap_cons. cbn [app]. rewrite paginate_page by done. rewrite Hnext_r.
    rewrite IH by done. rewrite after_app.
    cbn [requested url_after foldl fmap list_fmap concat]. rewrite Hnext_r. cbn [from_option id].
    rewrite <- List.app_assoc.
    f_equal. f_equal. by destruct pages.
Qed.

End Driver.

(** ** Output writer *)

Lemma item_to_row_record (item : JSON) :
  is_record item → ∃ row, _item_to_row item = Ok row.
Proof. intros (m & -> & Hm). eexists. by apply item_to_row_usable. Qed.

(** The row mapper on any item: a row for a record, [AttributeError] for
    anything else. *)
Lemma item_to_row_cases (item : JSON) :
  (is_record item ∧ ∃ row, _item_to_row item = Ok row)
  ∨ (¬ is_record item ∧ _item_to_row item = Err AttributeError).
Proof.
  assert (Hmapping : ∀ v : JSON, (∃ m, v = JObj m) ∨ ¬ ∃ m, v = JObj m).
  { intros []; first [left; by eexists | right; by intros [? ?]]. }
  destruct (Hmapping item) as [[m ->]|Hno].
  - destruct (m !! "serviceData") as [v|] eqn:Hsd.
    + destruct (Py.truthy v) eqn:Htruthy.
      * destruct (Hmapping v) as [[m' ->]|Hv].
        -- left. assert (is_record (JObj m)) as Hrec.
           { exists m. split; [done|]. unfold service_data_usable. rewrite Hsd. right. by eexists. }
           split; [done|]. by apply item_to_row_record.
        -- right. split.
           ++ intros (m0 & [= <-] & Hm). unfold service_data_usable in Hm.
              rewrite Hsd in Hm. destruct Hm as [Hm|Hm]; [congruence|done].
           ++ unfold _item_to_row. cbn [Py.get mbind result_bind].
              rewrite Hsd. cbn [from_option id]. unfold Py.or. rewrite Htruthy.
              destruct v; try done. destruct Hv. by eexists.
      * left. assert (is_record (JObj m)) as Hrec.
        { exists m. split; [done|]. unfold service_data_usable. rewrite Hsd. by left. }
        split; [done|]. by apply item_to_row_record.
    + left. assert (is_record (JObj m)) as Hrec.
      { exists m. split; [done|]. unfold service_data_usable. by rewrite Hsd. }
      split; [done|]. by apply item_to_row_record.
  - right. split.
    + intros (m & -> & _). destruct Hno. by eexists.
    + destruct item; try done. destruct Hno. by eexists.
Qed.

Section Writer.

(** What writing a row raises, whatever that is. *)
Variable raises : list JSON → option exn.

(** One step of the loop, on an item the writer gets into the file and on
    one it does not. *)
Lemma write_rows_cons_writes (item : JSON) (rest : list JSON) :
  writes raises item →
  write_rows raises (item :: rest) = after [EvWriteRow (cells_of item)] (write_rows raises rest).
Proof.
  unfold writes, row_error, cells_of. intros Hitem. cbn [write_rows].
  destruct (_item_to_row item) as [row|e]; [|done]. by rewrite Hitem.
Qed.

Lemma write_rows_cons_stops (item : JSON) (rest : list JSON) (e : exn) :
  row_error raises item = Some e → write_rows raises (item :: rest) = ([], Err e).
Proof.
  unfold row_error. intros Hitem. cbn [write_rows].
  destruct (_item_to_row item) as [row|e']; [by rewrite Hitem|congruence].
Qed.

Lemma write_rows_writes (items : list JSON) :
  Forall (writes raises) items →
  write_rows raises items = (EvWriteRow ∘ cells_of <$> items, Ok tt).
Proof.
  intros Hitems. induction Hitems as [|item items Hitem _ IH]; [done|].
  rewrite write_rows_cons_writes by done. by rewrite IH.
Qed.

Lemma write_recordings_csv_writes (items : list JSON) (path : string) :
  Forall (writes raises) items →
  write_recordings_csv true raises items path = (written_file path items, Ok tt).
Proof.
  intros Hitems. unfold write_recordings_csv. by rewrite write_rows_writes.
Qed.

(** The loop stops at the first item it cannot write, with the rows of the
    items before it written. *)
Lemma write_rows_stop (good : list JSON) (bad : JSON) (rest : list JSON) (e : exn) :
  Forall (writes raises) good → row_error raises bad = Some e →
  write_rows raises (good ++ bad :: rest) = (EvWriteRow ∘ cells_of <$> good, Err e).
Proof.
  intros Hgood Hbad. induction Hgood as [|item good Hitem _ IH].
  - cbn [app]. by rewrite (write_rows_cons_stops _ _ e).
  - cbn [app]. rewrite write_rows_cons_writes by done. by rewrite IH.
Qed.

(** A loop that comes to its end has written every item. *)
Lemma write_rows_ok (items : list JSON) (rows : Trace) :
  write_rows raises items = (rows, Ok tt) →
  rows = (EvWriteRow ∘ cells_of <$> items) ∧ Forall (writes raises) items.
Proof.
  revert rows. induction items as [|item items IH]; intros rows.
  - intros [= <-]. by split.
  - destruct (row_error raises item) as [e|] eqn:Hitem.
    + by rewrite (write_rows_cons_stops _ _ e).
    + rewrite write_rows_cons_writes by done.
      destruct (write_rows raises items) as [rows' [[]|e]]; unfold after; cbn [fst snd]; [|done].
      intros [= <-]. destruct (IH rows' eq_refl) as [-> Hitems].
      split; [done|]. by constructor.
Qed.

Lemma write_rows_events (items : list JSON) :
  Forall (λ ev, file_event ev = true ∧ is_open ev = false ∧ is_get ev = false)
    (write_rows raises items).1.
Proof.
  induction items as [|item items IH]; [by constructor|].
  cbn [write_rows]. destruct (_item_to_row item); [|by constructor].
  destruct (raises _); [by constructor|]. by constructor.
Qed.

Lemma write_recordings_csv_events (writable : bool) (items : list JSON) (path : string) :
  let written := (write_recordings_csv writable raises items path).1 in
  Forall (λ ev, is_get ev = false) written
  ∧ (length (List.filter is_open written) ≤ 1)%nat.
Proof.
  unfold write_recordings_csv. destruct writable; cbn; [|by split; [constructor|lia]].
  pose proof (write_rows_events items) as Hrows. split.
  - do 2 (constructor; [done|]). eapply Forall_impl; [done|]. by intros ev (_ & _ & ?).
  - assert (List.filter is_open (write_rows raises items).1 = []) as ->; [|done].
    induction Hrows as [|ev evs (_ & Hev & _) _ IH]; [done|].
    cbn. by rewrite Hev.
Qed.

Lemma write_recordings_csv_file_events (writable : bool) (items : list JSON)
    (path : string) :
  Forall (λ ev, file_event ev = true)
    (write_recordings_csv writable raises items path).1.
Proof.
  unfold write_recordings_csv. destruct writable; [|by constructor].
  cbn. do 2 (constructor; [done|]).
  eapply Forall_impl; [apply write_rows_events|]. by intros ev (? & _).
Qed.

End Writer.

(** The items the writer gets into the file are the records on whose row
    writing raises nothing. *)
Lemma writes_iff_record (raises : list JSON → option exn) (item : JSON) :
  writes raises item ↔ is_record item ∧ raises (cells_of item) = None.
Proof.
  unfold writes, row_error, cells_of.
  destruct (item_to_row_cases item) as [[Hitem [row ->]]|[Hitem ->]].
  - split; [done|]. by intros [_ ?].
  - split; [done|]. by intros [? _].
Qed.

(** ** What a run leaves in its trace *)

Lemma paginate_events (has_requests : bool) (token : string) (answers : list NetResult)
    (url : string) (all_items : list JSON) (c : Z) :
  Forall (loop_event has_requests) (paginate has_requests token answers url all_items c).1.
Proof.
  revert url all_items c. induction answers as [|answer rest IH]; intros url all_items c.
  - by constructor.
  - cbn [paginate].
    pose proof (fetch_page_event has_requests url token answer) as Hev.
    destruct (fetch_page has_requests url token answer) as [ev fetched].
    cbn [fst] in Hev. subst ev.
    assert (Hget : loop_event has_requests (get_event has_requests url token)).
    { by destruct has_requests. }
    destruct fetched as [[data next]|e].
    + destruct (Py.get data "items" JNull) as [[]|]; try by repeat constructor.
      destruct next as [next|]; [|by repeat constructor].
      destruct (PyStr.truthy next); [|by repeat constructor].
      constructor; [done|]. apply IH.
    + destruct e; try by repeat constructor.
      destruct (MAX_429_RETRIES <? c + 1)%Z; [by repeat constructor|].
      unfold time_sleep. destruct (wait_seconds <? 0)%Z; [by repeat constructor|].
      cbn. do 3 (constructor; [done|]). apply IH.
Qed.

Lemma loop_event_no_file (has_requests : bool) (ev : Event) :
  loop_event has_requests ev → file_event ev = false ∧ is_open ev = false.
Proof. by destruct ev. Qed.

Lemma filter_is_open_loop (has_requests : bool) (evs : Trace) :
  Forall (loop_event has_requests) evs → List.filter is_open evs = [].
Proof.
  intros Hevs. induction Hevs as [|ev evs Hev _ IH]; [done|].
  cbn. by destruct ev.
Qed.


(** ** The driver on well-formed pages *)

Lemma requested_snoc (has_requests : bool) (url : string) (pages : list Response)
    (last : Response) :
  requested has_requests url (pages ++ [last])
  = requested has_requests url pages ++ [url_after has_requests url pages].
Proof.
  revert url. induction pages as [|r pages IH]; intros url; [done|].
  cbn [requested app url_after foldl]. by rewrite IH.
Qed.

Lemma length_requested (has_requests : bool) (url : string) (pages : list Response) :
  length (requested has_requests url pages) = length pages.
Proof.
  revert url. induction pages as [|r pages IH]; intros url; [done|].
  cbn. by rewrite IH.
Qed.


(** [Forall] over an explicit list, each element by [tac]. *)
Ltac each_element tac :=
  repeat (apply List.Forall_cons; [tac|]); apply List.Forall_nil.

Lemma recording_is_record (id : string) : is_record (recording id).
Proof. eexists. split; [done|]. by unfold service_data_usable. Qed.

(** CPython's writer renders the row of a sample recording. *)
Lemma recording_writes (id : string) : writes Csv.writerow_error (recording id).
Proof. reflexivity. Qed.

Lemma page_is_page (has_requests : bool) (items : list JSON) (next : option string) :
  is_page has_requests (page items next).
Proof. split; [by destruct has_requests|]. by eexists. Qed.



(** ** Aborts of the driver *)

(** C4.  After any number of successful pages, a response that is
    fetched without error but whose body holds no list under [items] ends
    the run at once: the request that brought it is the last event but for
    the error message, the run raises ([SystemExit(1)], or
    [AttributeError] when the body is not a mapping at all), the process
    would exit with status 1, and no file event occurs, whatever had been
    accumulated. *)
Theorem missing_items_aborts (has_requests : bool) (w : World) (token csv_path : string)
    (pages : list Response) (bad : Response) (rest : list NetResult)
    (window : string * string) :
  _past_30_days_iso (now w) = Ok window →
  answers w = (Answer <$> pages) ++ Answer bad :: rest →
  Forall (is_page has_requests) pages →
  Forall (λ r, is_Some (following has_requests r)) pages →
  status_ok has_requests bad = true →
  is_Some (body bad) →
  page_items bad = None →
  let url := initial_url window.1 window.2 in
  ∃ said e,
    list_all_recordings has_requests w token csv_path
    = (((λ u, get_event has_requests u token) <$> requested has_requests url (pages ++ [bad]))
         ++ said,
       Raised e)
    ∧ (said = [] ∧ e = AttributeError
       ∨ said = [EvStderr MsgMissingItems] ∧ e = SystemExit 1)
    ∧ exit_of (Raised e) = Exited 1
    ∧ Forall (λ ev, file_event ev = false)
        (list_all_recordings has_requests w token csv_path).1.
Proof.
  intros Hwindow Hanswers Hpages Hnext Hst [data Hbody] Hnone url.
  assert (∃ said e,
    paginate has_requests token (answers w) url [] 0
    = (((λ u, get_event has_requests u token) <$> requested has_requests url (pages ++ [bad]))
         ++ said,
       Aborted e)
    ∧ (said = [] ∧ e = AttributeError
       ∨ said = [EvStderr MsgMissingItems] ∧ e = SystemExit 1))
    as (said & e & Hloop & Hcase).
  { rewrite Hanswers, paginate_pages by done.
    rewrite requested_snoc, fmap_app. cbn [fmap list_fmap].
    destruct (paginate_no_items has_requests token bad data rest (url_after has_requests url pages)
                ([] ++ concat (items_of <$> pages)) (if pages is [] then 0 else 0)
                Hst Hbody Hnone) as [-> | ->].
    - exists [], AttributeError. split; [|by left].
      unfold after. cbn [fst snd]. by rewrite List.app_nil_r.
    - exists [EvStderr MsgMissingItems], (SystemExit 1). split; [|by right].
      unfold after. cbn [fst snd]. by rewrite <- List.app_assoc. }
  assert (Hrun : list_all_recordings has_requests w token csv_path
                 = (((λ u, get_event has_requests u token)
                       <$> requested has_requests url (pages ++ [bad]))
                    ++ said, Raised e)).
  { unfold list_all_recordings. rewrite Hwindow. destruct window as [from_iso to_iso].
    cbn [fst snd] in *. fold url. by rewrite Hloop. }
  exists said, e. split; [done|]. split; [done|]. split.
  - by destruct Hcase as [[_ ->]|[_ ->]].
  - rewrite Hrun. cbn [fst].
    pose proof (paginate_events has_requests token (answers w) url [] 0) as Hevents.
    rewrite Hloop in Hevents. cbn [fst] in Hevents.
    eapply Forall_impl; [done|]. intros ev Hev. by eapply loop_event_no_file.
Qed.

(** One good page of two items, then a body without [items]: the run
    raises [SystemExit(1)] right after the second request. *)
Lemma missing_items_aborts_witness :
  list_all_recordings true world_missing_items "secret" "out.csv"
  = ([EvSessionGet noon_url "secret"; EvSessionGet "https://x/p2" "secret";
      EvStderr MsgMissingItems],
     Raised (SystemExit 1)).
Proof.
  destruct (missing_items_aborts true world_missing_items "secret" "out.csv"
              [page [recording "a"; recording "b"] (Some "https://x/p2")]
              (mk_response 200 [] (Some (JObj {[ "message" := JStr "ok" ]})))
              [Answer third_page]
              ("2026-10-05T12:00:00Z", "2026-11-04T12:00:00Z"))
    as (said & e & Hrun & [[-> ->]|[-> ->]] & _).
  - by vm_compute.
  - reflexivity.
  - each_element ltac:(apply page_is_page).
  - each_element ltac:(by eexists; vm_compute).
  - reflexivity.
  - by eexists.
  - by vm_compute.
  - by vm_compute in Hrun.
  - exact Hrun.
Defined.

(** ** Back-off on 429 *)

Section Backoff.

Variable has_requests : bool.
Variable token : string.

Local Abbreviation paginate := (paginate has_requests token).

(** As long as the counter stays within the cap and the waits are not
    negative, every 429 costs one round on the same URL and leaves the
    items untouched. *)
Lemma paginate_backoff (rs : list Response) (rest : list NetResult)
    (url : string) (all_items : list JSON) (c : Z) :
  Forall rate_limited rs →
  Forall (λ r, 0 ≤ wait_of has_requests r) rs →
  c + Z.of_nat (length rs) ≤ MAX_429_RETRIES →
  paginate ((Answer <$> rs) ++ rest) url all_items c =
  after (concat (backoff_round has_requests url token <$> rs))
    (paginate rest url all_items (c + Z.of_nat (length rs))).
Proof.
  revert c. induction rs as [|r rs IH]; intros c H429 Hwait Hcap.
  - cbn. by rewrite after_nil, Z.add_0_r.
  - apply Forall_cons in H429 as [Hr H429]. apply Forall_cons in Hwait as [Hw Hwait].
    cbn [length] in Hcap. rewrite fmap_cons. cbn [app].
    rewrite paginate_429 by done.
    destruct (Z.ltb_spec MAX_429_RETRIES (c + 1)) as [|_]; [lia|].
    destruct (Z.ltb_spec (wait_of has_requests r) 0) as [|_]; [lia|].
    rewrite IH by (done || lia). rewrite after_app. cbn [length].
    do 2 f_equal. lia.
Qed.

(** A 429 that finds the counter at the cap ends the loop, whatever its
    wait. *)
Lemma paginate_gives_up (r : Response) (rest : list NetResult)
    (url : string) (all_items : list JSON) (c : Z) :
  rate_limited r → MAX_429_RETRIES ≤ c →
  paginate (Answer r :: rest) url all_items c
  = ([get_event has_requests url token; EvStderr MsgRateLimitGiveUp],
     Aborted (SystemExit 1)).
Proof.
  intros Hr Hc. rewrite paginate_429 by done.
  by destruct (Z.ltb_spec MAX_429_RETRIES (c + 1)) as [_|]; [|lia].
Qed.

End Backoff.

(** X1.  Within the cap, rate-limit signals with waits that are not negative
    are each answered by the notice, a sleep of the signalled length and a
    new request of the same URL; the items gathered so far are kept and
    the counter has grown by one per signal. *)
Theorem rate_limited_rounds_retry_same_url (has_requests : bool) (token : string)
    (rs : list Response) (rest : list NetResult) (url : string) (all_items : list JSON) :
  Forall rate_limited rs →
  Forall (λ r, 0 ≤ wait_of has_requests r) rs →
  (length rs ≤ 10)%nat →
  paginate has_requests token ((Answer <$> rs) ++ rest) url all_items 0 =
  after (concat (backoff_round has_requests url token <$> rs))
    (paginate has_requests token rest url all_items (Z.of_nat (length rs))).
Proof.
  intros H429 Hwait Hlen.
  rewrite paginate_backoff; [done..|]. unfold MAX_429_RETRIES. lia.
Qed.

(** Two signals, of 5 and of the default 60 seconds, then the script of
    answers ends: two rounds on the same URL, the counter at 2. *)
Lemma rate_limited_rounds_retry_same_url_witness :
  paginate true "t" (Answer <$> [response_429 "5"; response_429 "soon"]) "u" [] 0
  = ([EvSessionGet "u" "t"; EvStderr (MsgRateLimitWait 5); EvSleep 5;
      EvSessionGet "u" "t"; EvStderr (MsgRateLimitWait 60); EvSleep 60],
     Starved "u" [] 2).
Proof.
  pose proof (rate_limited_rounds_retry_same_url true "t"
                [response_429 "5"; response_429 "soon"] [] "u" []) as Hrounds.
  rewrite List.app_nil_r in Hrounds. rewrite Hrounds.
  - by vm_compute.
  - by repeat constructor.
  - repeat constructor; by vm_compute.
  - cbn. lia.
Defined.

(** X2.  The eleventh consecutive rate-limit signal ends the run with
    [SystemExit(1)]: ten rounds of back-off on the first URL, an eleventh
    request, the message, and no file event; what the network would
    answer next is never asked for. *)
Theorem eleven_rate_limits_abort (has_requests : bool) (w : World) (token csv_path : string)
    (rs : list Response) (r11 : Response) (rest : list NetResult)
    (window : string * string) :
  _past_30_days_iso (now w) = Ok window →
  answers w = (Answer <$> rs) ++ Answer r11 :: rest →
  length rs = 10%nat →
  Forall rate_limited rs →
  Forall (λ r, 0 ≤ wait_of has_requests r) rs →
  rate_limited r11 →
  let url := initial_url window.1 window.2 in
  list_all_recordings has_requests w token csv_path
  = (concat (backoff_round has_requests url token <$> rs)
       ++ [get_event has_requests url token; EvStderr MsgRateLimitGiveUp],
     Raised (SystemExit 1))
  ∧ exit_of (Raised (SystemExit 1)) = Exited 1
  ∧ Forall (λ ev, file_event ev = false)
      (list_all_recordings has_requests w token csv_path).1.
Proof.
  intros Hwindow Hanswers Hlen H429 Hwait H11 url.
  assert (Hrun : list_all_recordings has_requests w token csv_path
    = (concat (backoff_round has_requests url token <$> rs)
         ++ [get_event has_requests url token; EvStderr MsgRateLimitGiveUp],
       Raised (SystemExit 1))).
  { unfold list_all_recordings. rewrite Hwindow. destruct window as [from_iso to_iso].
    cbn [fst snd] in *. fold url. rewrite Hanswers.
    rewrite paginate_backoff; [|done..|unfold MAX_429_RETRIES; lia].
    rewrite paginate_gives_up; [done..|unfold MAX_429_RETRIES; lia]. }
  split; [done|]. split; [done|]. rewrite Hrun. cbn [fst].
  apply Forall_app. split; [|by destruct has_requests; repeat constructor].
  apply Forall_concat, Forall_fmap, Forall_forall. intros r _.
  by destruct has_requests; repeat constructor.
Qed.

(** Eleven 429 responses in a row with [Retry-After: 1]. *)
Lemma eleven_rate_limits_abort_witness :
  (list_all_recordings true world_eleven_429 "secret" "out.csv").2 = Raised (SystemExit 1)
  ∧ length (List.filter is_get
              (list_all_recordings true world_eleven_429 "secret" "out.csv").1) = 11%nat
  ∧ length (List.filter is_sleep
              (list_all_recordings true world_eleven_429 "secret" "out.csv").1) = 10%nat.
Proof.
  destruct (eleven_rate_limits_abort true world_eleven_429 "secret" "out.csv"
              ten_429 (response_429 "1") [Answer third_page]
              ("2026-10-05T12:00:00Z", "2026-11-04T12:00:00Z"))
    as (Hrun & _).
  - by vm_compute.
  - reflexivity.
  - reflexivity.
  - by repeat constructor.
  - repeat constructor; by vm_compute.
  - reflexivity.
  - rewrite Hrun. cbn [fst snd]. split_and!; reflexivity.
Defined.

(** X3.  A successful page sets the counter back to zero, wherever it
    stood. *)
Theorem page_resets_rate_limit_counter (has_requests : bool) (token : string)
    (r : Response) (next : string) (rest : list NetResult)
    (url : string) (all_items : list JSON) (c : Z) :
  is_page has_requests r →
  following has_requests r = Some next →
  paginate has_requests token (Answer r :: rest) url all_items c
  = after [get_event has_requests url token]
      (paginate has_requests token rest next (all_items ++ items_of r) 0).
Proof. intros Hpage Hnext. rewrite paginate_page by done. by rewrite Hnext. Qed.

(** A page met with the counter at 10: the next ten 429s are tolerated
    again. *)
Lemma page_resets_rate_limit_counter_witness :
  paginate true "t"
    (Answer (page [recording "a"] (Some "https://x/p2")) :: (Answer <$> ten_429))
    "u" [] 10
  = after (EvSessionGet "u" "t"
             :: concat (backoff_round true "https://x/p2" "t" <$> ten_429))
      ([], Starved "https://x/p2" [recording "a"] 10).
Proof.
  rewrite (page_resets_rate_limit_counter true "t"
             (page [recording "a"] (Some "https://x/p2")) "https://x/p2").
  - by vm_compute.
  - apply page_is_page.
  - by vm_compute.
Defined.

(** C2, at the failing input.  One 429 with [Retry-After: -5]: the wait
    of -5 reaches [time.sleep], which raises [ValueError]; the run ends on
    its first signal, with no sleep and no second request, and the process
    exits with status 1. *)
Lemma negative_retry_after_aborts_run :
  list_all_recordings true world_negative_retry_after "secret" "out.csv"
  = ([EvSessionGet noon_url "secret"; EvStderr (MsgRateLimitWait (-5))], Raised ValueError)
  ∧ main true world_negative_retry_after
    = ([EvPrompt; EvSessionGet noon_url "secret"; EvStderr (MsgRateLimitWait (-5));
        EvStderr (MsgError ValueError)],
       Exited 1).
Proof. by vm_compute. Qed.

(** ** Entry point *)

Lemma list_all_recordings_events (has_requests : bool) (w : World) (token csv_path : string) :
  Forall (λ ev, loop_event has_requests ev ∨ file_event ev = true)
    (list_all_recordings has_requests w token csv_path).1.
Proof.
  unfold list_all_recordings.
  destruct (_past_30_days_iso (now w)) as [[from_iso to_iso]|e]; [|by constructor].
  pose proof (paginate_events has_requests token (answers w)
                (initial_url from_iso to_iso) [] 0) as Hloop.
  destruct (paginate has_requests token (answers w) (initial_url from_iso to_iso) [] 0)
    as [fetched exit].
  cbn [fst] in Hloop.
  assert (Hfetched : Forall (λ ev, loop_event has_requests ev ∨ file_event ev = true) fetched).
  { eapply Forall_impl; [done|]. by left. }
  destruct exit as [all_items|e|url items c]; [|done..].
  assert (Hwritten : Forall (λ ev, loop_event has_requests ev ∨ file_event ev = true)
                       (write_recordings_csv (writable w) (writerow_error w) all_items csv_path).1).
  { unfold write_recordings_csv. destruct (writable w); [|by constructor].
    cbn. do 2 (constructor; [by right|]).
    eapply Forall_impl; [apply write_rows_events|]. intros ev (? & _). by right. }
  destruct (write_recordings_csv (writable w) (writerow_error w) all_items csv_path)
    as [written [[]|e]];
    cbn [fst] in *.
  - rewrite !Forall_app. split_and!; [done..|]. constructor; [by left|by constructor].
  - by rewrite Forall_app.
Qed.

(** C10.  Without [requests], [main] prints its error and exits with
    status 1 as its only action: no prompt, no request.  And whether the
    import succeeded or not, no trace of [main] holds a call of [urlopen]:
    the fallback branch of the fetcher is never run from the entry
    point. *)
Theorem urllib_fallback_unreachable (has_requests : bool) (w : World) :
  main false w = ([EvStderr MsgNeedRequests], Exited 1)
  ∧ Forall (λ ev, ∀ url token, ev ≠ EvUrlopen url token) (main has_requests w).1.
Proof.
  split; [done|]. destruct has_requests; [|by repeat constructor].
  unfold main. cbn [negb].
  assert (Hasked : Forall (λ ev, ∀ url token, ev ≠ EvUrlopen url token)
                     (get_token_from_user (stdin w)).1).
  { unfold get_token_from_user. destruct (stdin w) as [line| |]; [|by repeat constructor..].
    destruct (negb _); by repeat constructor. }
  destruct (get_token_from_user (stdin w)) as [asked [token|e]]; cbn [fst] in Hasked.
  - pose proof (list_all_recordings_events true w token DEFAULT_CSV_FILENAME) as Hran.
    assert (Hran' : Forall (λ ev, ∀ url token, ev ≠ EvUrlopen url token)
                      (list_all_recordings true w token DEFAULT_CSV_FILENAME).1).
    { eapply Forall_impl; [done|]. intros ev [Hev|Hev] ??; by destruct ev. }
    destruct (list_all_recordings true w token DEFAULT_CSV_FILENAME) as [ran outcome].
    cbn [fst] in Hran'.
    destruct outcome as [count|e|]; [|destruct e|]; cbn [fst];
      rewrite ?Forall_app; split_and?; try done; by repeat constructor.
  - by destruct e.
Qed.

(** ** The calendar *)

Module CalendarFacts.
Import Calendar.

Lemma month_day_checked (leapyear : bool) (n : Z) :
  0 ≤ n < 365 → month_day_ok leapyear n = true.
Proof.
  intros Hn.
  assert (Hall : forallb (λ n, month_day_ok true n && month_day_ok false n) (seqZ 0 365) = true).
  { by vm_compute. }
  rewrite forallb_forall in Hall.
  specialize (Hall n). rewrite <- list_elem_of_In, elem_of_seqZ in Hall.
  apply andb_true_iff in Hall as [Ht Hf]; [|lia]. by destruct leapyear.
Qed.

Lemma month_day_spec (leapyear : bool) (n : Z) :
  0 ≤ n < 365 →
  ∃ m d, month_day n leapyear = (m, d)
    ∧ 1 ≤ m ≤ 12
    ∧ 1 ≤ d ≤ (if (m =? 2)%Z && leapyear then 29 else table _DAYS_IN_MONTH m)
    ∧ table _DAYS_BEFORE_MONTH m + Z.b2z ((2 <? m) && leapyear) + d = n + 1.
Proof.
  intros Hn. pose proof (month_day_checked leapyear n Hn) as Hok.
  unfold month_day_ok in Hok. destruct (month_day n leapyear) as [m d].
  exists m, d. split; [done|].
  repeat (apply andb_true_iff in Hok as [Hok ?]). lia.
Qed.

Lemma ord2ymd_unfold (n : Z) :
  _ord2ymd n =
  let n0 := n - 1 in
  let n400 := n0 / 146097 in
  let r400 := n0 mod 146097 in
  let n100 := r400 / 36524 in
  let r100 := r400 mod 36524 in
  let n4 := r100 / 1461 in
  let r4 := r100 mod 1461 in
  let n1 := r4 / 365 in
  let r := r4 mod 365 in
  let year := n400 * 400 + 1 + n100 * 100 + n4 * 4 + n1 in
  if (n1 =? 4)%Z || (n100 =? 4)%Z then (year - 1, 12, 31)
  else
    let '(m, d) := month_day r ((n1 =? 3)%Z && (negb (n4 =? 24)%Z || (n100 =? 3)%Z)) in
    (year, m, d).
Proof.
  unfold _ord2ymd, month_day, _DI400Y, _DI100Y, _DI4Y. cbv zeta.
  repeat case_match; simplify_eq; done.
Qed.

(** Years counted in cycles of 400, 100 and 4. *)
Lemma year_split (a b c d : Z) :
  0 ≤ a → 0 ≤ b ≤ 3 → 0 ≤ c ≤ 24 → 0 ≤ d ≤ 3 →
  let year := 400 * a + 100 * b + 4 * c + d + 1 in
  _days_before_year year = 146097 * a + 36524 * b + 1461 * c + 365 * d
  ∧ _is_leap year = (d =? 3)%Z && (negb (c =? 24)%Z || (b =? 3)%Z).
Proof.
  intros Ha Hb Hc Hd year. split.
  - unfold _days_before_year, year. Z.div_mod_to_equations. lia.
  - unfold _is_leap, year.
    destruct (Z.eqb_spec d 3), (Z.eqb_spec c 24), (Z.eqb_spec b 3); cbn;
      repeat match goal with
             | |- context [(?x =? 0)%Z] => destruct (Z.eqb_spec x 0)
             end; cbn; try done; exfalso; Z.div_mod_to_equations; lia.
Qed.

Lemma month_cases (m : Z) :
  1 ≤ m ≤ 12 →
  m = 1 ∨ m = 2 ∨ m = 3 ∨ m = 4 ∨ m = 5 ∨ m = 6
  ∨ m = 7 ∨ m = 8 ∨ m = 9 ∨ m = 10 ∨ m = 11 ∨ m = 12.
Proof. lia. Qed.

(** [_ord2ymd] inverts [_ymd2ord] on the ordinals of the calendar. *)
Lemma ord2ymd_spec (n : Z) :
  1 ≤ n ≤ _MAXORDINAL →
  ∃ y m d, _ord2ymd n = (y, m, d)
    ∧ 1 ≤ y ≤ 9999 ∧ 1 ≤ m ≤ 12 ∧ 1 ≤ d ≤ _days_in_month y m
    ∧ _ymd2ord y m d = n.
Proof.
  unfold _MAXORDINAL. intros Hn. rewrite ord2ymd_unfold. cbv zeta.
  set (n0 := n - 1).
  set (a := n0 / 146097). set (r400 := n0 mod 146097).
  set (b := r400 / 36524). set (r100 := r400 mod 36524).
  set (c := r100 / 1461). set (r4 := r100 mod 1461).
  set (d := r4 / 365). set (r := r4 mod 365).
  assert (Hdiv : n0 = 146097 * a + r400 ∧ 0 ≤ r400 < 146097
                 ∧ r400 = 36524 * b + r100 ∧ 0 ≤ r100 < 36524
                 ∧ r100 = 1461 * c + r4 ∧ 0 ≤ r4 < 1461
                 ∧ r4 = 365 * d + r ∧ 0 ≤ r < 365).
  { unfold a, r400, b, r100, c, r4, d, r. Z.div_mod_to_equations. lia. }
  clearbody a r400 b r100 c r4 d r.
  destruct Hdiv as (Hn0 & Hr400 & Hb & Hr100 & Hc & Hr4 & Hd & Hr).
  assert (Hn0' : 0 ≤ n0 ≤ 3652058 ∧ n = n0 + 1) by (unfold n0; lia). clearbody n0.
  assert (Hbounds : 0 ≤ a ≤ 24 ∧ 0 ≤ b ≤ 4 ∧ 0 ≤ c ≤ 24 ∧ 0 ≤ d ≤ 4) by lia.
  destruct (Z.eqb_spec d 4) as [Hd4|Hd4]; [|destruct (Z.eqb_spec b 4) as [Hb4|Hb4]];
    cbn [orb].
  - (* the last day of a leap year that closes a cycle of four *)
    destruct (year_split a b c 3) as [Hdby Hleap]; [lia..|]. cbv zeta in *.
    exists (400 * a + 100 * b + 4 * c + 3 + 1), 12, 31.
    split; [f_equal; f_equal; lia|].
    unfold _ymd2ord, _days_before_month, _days_in_month. rewrite Hdby, Hleap.
    change (table _DAYS_IN_MONTH 12) with 31.
    change (table _DAYS_BEFORE_MONTH 12) with 334.
    destruct (Z.eqb_spec c 24); [lia|]. cbn. lia.
  - (* the last day of a cycle of 400 years *)
    destruct (year_split a 3 24 3) as [Hdby Hleap]; [lia..|]. cbv zeta in *.
    exists (400 * a + 100 * 3 + 4 * 24 + 3 + 1), 12, 31.
    split; [f_equal; f_equal; lia|].
    unfold _ymd2ord, _days_before_month, _days_in_month. rewrite Hdby, Hleap.
    change (table _DAYS_IN_MONTH 12) with 31.
    change (table _DAYS_BEFORE_MONTH 12) with 334.
    cbn. lia.
  - destruct (year_split a b c d) as [Hdby Hleap]; [lia..|]. cbv zeta in *.
    destruct (month_day_spec ((d =? 3)%Z && (negb (c =? 24)%Z || (b =? 3)%Z)) r)
      as (m & dd & -> & Hm & Hdd & Hord); [lia|].
    exists (400 * a + 100 * b + 4 * c + d + 1), m, dd.
    split; [f_equal; f_equal; lia|].
    unfold _ymd2ord, _days_before_month, _days_in_month. rewrite Hdby, Hleap.
    split; [lia|]. split; [done|]. split; [done|]. lia.
Qed.

Lemma year_length (y : Z) :
  1 ≤ y → _days_before_year (y + 1) = _days_before_year y + 365 + Z.b2z (_is_leap y).
Proof.
  intros Hy. unfold _days_before_year, _is_leap.
  repeat match goal with
         | |- context [(?x =? 0)%Z] => destruct (Z.eqb_spec x 0)
         end; cbn; Z.div_mod_to_equations; lia.
Qed.

Lemma days_before_year_mono (y y' : Z) :
  1 ≤ y ≤ y' → _days_before_year y ≤ _days_before_year y'.
Proof. intros Hy. unfold _days_before_year. Z.div_mod_to_equations. lia. Qed.

(** The day of the year stays within the year. *)
Lemma day_of_year_bound (y m d : Z) :
  1 ≤ m ≤ 12 → 1 ≤ d ≤ _days_in_month y m →
  1 ≤ _days_before_month y m + d ≤ 365 + Z.b2z (_is_leap y).
Proof.
  intros Hm Hd. unfold _days_before_month, _days_in_month in *.
  destruct (_is_leap y);
    destruct (month_cases m Hm) as [->|[->|[->|[->|[->|[->|[->|[->|[->|[->|[->| ->]]]]]]]]]]];
    lazy [table nth Z.to_nat Pos.to_nat Pos.iter_op Nat.add _DAYS_IN_MONTH _DAYS_BEFORE_MONTH
          Z.eqb Pos.eqb Z.ltb Z.compare Pos.compare Pos.compare_cont andb Z.b2z] in *;
    lia.
Qed.

Lemma ymd2ord_bounds (y m d : Z) :
  1 ≤ y ≤ 9999 → 1 ≤ m ≤ 12 → 1 ≤ d ≤ _days_in_month y m →
  _days_before_year y < _ymd2ord y m d ≤ _days_before_year (y + 1)
  ∧ 1 ≤ _ymd2ord y m d ≤ _MAXORDINAL.
Proof.
  intros Hy Hm Hd. pose proof (day_of_year_bound y m d Hm Hd) as Hdoy.
  pose proof (year_length y ltac:(lia)) as Hlen.
  pose proof (days_before_year_mono 1 y ltac:(lia)) as Hlow.
  pose proof (days_before_year_mono (y + 1) 10000 ltac:(lia)) as Hhigh.
  unfold _ymd2ord, _MAXORDINAL.
  change (_days_before_year 1) with 0 in Hlow.
  change (_days_before_year 10000) with 3652059 in Hhigh. lia.
Qed.

End CalendarFacts.

(** ** The first request *)

Lemma quote_plus_app (a b : string) :
  Url.quote_plus (a +:+ b) = Url.quote_plus a +:+ Url.quote_plus b.
Proof.
  induction a as [|c a IH]; [done|].
  rewrite str_app_cons. cbn [Url.quote_plus]. rewrite IH.
  by repeat case_match.
Qed.

Lemma digit_char_cases (d : Z) :
  Calendar.digit_char d ∈
    ["0"; "1"; "2"; "3"; "4"; "5"; "6"; "7"; "8"; "9"]%char.
Proof.
  unfold Calendar.digit_char.
  assert (Hk : 0 ≤ d mod 10 < 10) by (apply Z.mod_pos_bound; lia).
  assert (d mod 10 = 0 ∨ d mod 10 = 1 ∨ d mod 10 = 2 ∨ d mod 10 = 3 ∨ d mod 10 = 4
          ∨ d mod 10 = 5 ∨ d mod 10 = 6 ∨ d mod 10 = 7 ∨ d mod 10 = 8 ∨ d mod 10 = 9)
    as Hcases by lia.
  destruct Hcases as [->|[->|[->|[->|[->|[->|[->|[->|[->| ->]]]]]]]]];
    apply (bool_decide_unpack _); by vm_compute.
Qed.

Lemma quote_plus_two_digits (n : Z) :
  Url.quote_plus (Calendar.two_digits n) = Calendar.two_digits n.
Proof.
  unfold Calendar.two_digits.
  pose proof (digit_char_cases (n / 10)) as H1.
  pose proof (digit_char_cases n) as H2.
  repeat (apply elem_of_cons in H1 as [->|H1]);
    repeat (apply elem_of_cons in H2 as [->|H2]);
    try done; try by apply elem_of_nil in H1.
  all: by apply elem_of_nil in H2.
Qed.

(** A year of four digits is written with all four. *)
Lemma year_digits_four (y : Z) :
  1000 ≤ y → Calendar.year_digits y = Calendar.four_digits y.
Proof.
  intros Hy. unfold Calendar.year_digits.
  destruct (Z.ltb_spec y 10); [lia|]. destruct (Z.ltb_spec y 100); [lia|].
  by destruct (Z.ltb_spec y 1000); [lia|].
Qed.

Lemma quote_plus_iso (dt : Calendar.datetime) :
  1000 ≤ Calendar.year dt →
  Url.quote_plus (Calendar.strftime_iso dt) = iso_escaped dt.
Proof.
  intros Hy. unfold Calendar.strftime_iso, iso_escaped. rewrite year_digits_four by done.
  unfold Calendar.four_digits.
  by rewrite !quote_plus_app, !quote_plus_two_digits.
Qed.

Lemma initial_url_iso (from_dt to_dt : Calendar.datetime) :
  1000 ≤ Calendar.year from_dt → 1000 ≤ Calendar.year to_dt →
  initial_url (Calendar.strftime_iso from_dt) (Calendar.strftime_iso to_dt)
  = "https://webexapis.com/v1/admin/convergedRecordings?from=" +:+ iso_escaped from_dt
    +:+ "&to=" +:+ iso_escaped to_dt +:+ "&max=100".
Proof.
  intros Hfrom Hto.
  unfold initial_url, Url.urlencode. cbn [fmap list_fmap Url.join fst snd].
  rewrite !quote_plus_iso by done.
  change (Url.quote_plus "from") with "from".
  change (Url.quote_plus "to") with "to".
  change (Url.quote_plus "max") with "max".
  change (Url.quote_plus (pretty DEFAULT_MAX_PER_PAGE)) with "100".
  unfold BASE_URL, CONVERGED_RECORDINGS_PATH.
  rewrite !str_app_assoc. reflexivity.
Qed.

(** The first event of a run that has an answer to read is the request of
    the initial URL. *)
Lemma list_all_recordings_first_request (has_requests : bool) (w : World)
    (token csv_path from_iso to_iso : string) :
  _past_30_days_iso (now w) = Ok (from_iso, to_iso) →
  answers w ≠ [] →
  ∃ tail, (list_all_recordings has_requests w token csv_path).1
          = get_event has_requests (initial_url from_iso to_iso) token :: tail.
Proof.
  intros Hwindow Hanswers. unfold list_all_recordings. rewrite Hwindow.
  destruct (answers w) as [|answer rest]; [done|].
  assert (∃ tail, (paginate has_requests token (answer :: rest)
                     (initial_url from_iso to_iso) [] 0).1
                  = get_event has_requests (initial_url from_iso to_iso) token :: tail)
    as [tail Htail].
  { cbn [paginate].
    pose proof (fetch_page_event has_requests (initial_url from_iso to_iso) token answer) as Hev.
    destruct (fetch_page _ _ _ answer) as [ev fetched]. cbn [fst] in Hev. subst ev.
    unfold after.
    repeat (case_match; cbn [fst app]; try by eexists). }
  destruct (paginate _ _ _ _ _ _) as [fetched exit]. cbn [fst] in Htail. subst fetched.
  repeat (case_match; cbn [fst app]; try by eexists).
Qed.

Lemma sub_days_spec (dt : Calendar.datetime) (days : Z) :
  valid_datetime dt →
  0 ≤ days < Calendar.toordinal dt →
  ∃ from_dt,
    Calendar.sub_days dt days = Ok from_dt
    ∧ valid_datetime from_dt
    ∧ Calendar.toordinal from_dt = Calendar.toordinal dt - days
    ∧ seconds_of from_dt = seconds_of dt - days * 86400
    ∧ Calendar.microsecond from_dt = Calendar.microsecond dt.
Proof.
  intros (Hy & Hm & Hd & Hh & Hmi & Hs & Hus) Hdays.
  pose proof (CalendarFacts.ymd2ord_bounds _ _ _ Hy Hm Hd) as [_ Hord].
  unfold Calendar.sub_days. fold (Calendar.toordinal dt) in Hord.
  destruct (Z.ltb_spec 0 (Calendar.toordinal dt - days)) as [_|]; [|lia].
  destruct (Z.leb_spec (Calendar.toordinal dt - days) Calendar._MAXORDINAL) as [_|]; [|lia].
  cbn [andb].
  destruct (CalendarFacts.ord2ymd_spec (Calendar.toordinal dt - days))
    as (y' & m' & d' & -> & Hy' & Hm' & Hd' & Hord'); [lia|].
  eexists. split; [done|].
  assert (Htime :
    (Calendar.hour dt * 3600 + Calendar.minute dt * 60 + Calendar.second dt) / 3600
      = Calendar.hour dt
    ∧ (Calendar.hour dt * 3600 + Calendar.minute dt * 60 + Calendar.second dt) mod 3600 / 60
      = Calendar.minute dt
    ∧ ((Calendar.hour dt * 3600 + Calendar.minute dt * 60 + Calendar.second dt) mod 3600)
        mod 60 = Calendar.second dt).
  { Z.div_mod_to_equations. lia. }
  destruct Htime as (Hh' & Hmi' & Hs').
  unfold valid_datetime, seconds_of, Calendar.toordinal. cbn.
  rewrite Hh', Hmi', Hs', Hord'. unfold Calendar.toordinal. split_and!; try done; lia.
Qed.

(** C8.  For every clock reading (a valid UTC date and time, not before
    1970), the window starts exactly 30 days, that is 2592000 seconds,
    before that reading and ends at it; both ends are written as
    [YYYY-MM-DDTHH:MM:SSZ]; and the first request of a run goes to the
    listing endpoint with [from] and [to] set to these two timestamps
    (their colons escaped) and [max=100]. *)
Theorem initial_request_window (has_requests : bool) (w : World) (token csv_path : string) :
  valid_datetime (now w) →
  1970 ≤ Calendar.year (now w) →
  ∃ from_dt,
    Calendar.sub_days (now w) 30 = Ok from_dt
    ∧ valid_datetime from_dt
    ∧ seconds_of from_dt = seconds_of (now w) - 30 * 86400
    ∧ Calendar.microsecond from_dt = Calendar.microsecond (now w)
    ∧ _past_30_days_iso (now w)
      = Ok (Calendar.strftime_iso from_dt, Calendar.strftime_iso (now w))
    ∧ (answers w ≠ [] →
       ∃ tail,
         (list_all_recordings has_requests w token csv_path).1
         = get_event has_requests
             ("https://webexapis.com/v1/admin/convergedRecordings?from="
              +:+ iso_escaped from_dt +:+ "&to=" +:+ iso_escaped (now w) +:+ "&max=100")
             token :: tail).
Proof.
  intros Hvalid Hyear.
  assert (Hnow : 719162 < Calendar.toordinal (now w)).
  { destruct Hvalid as (Hy & Hm & Hd & _).
    pose proof (CalendarFacts.ymd2ord_bounds _ _ _ Hy Hm Hd) as [[Hlow _] _].
    pose proof (CalendarFacts.days_before_year_mono 1970 (Calendar.year (now w))
                  ltac:(lia)) as Hmono.
    change (Calendar._days_before_year 1970) with 719162 in Hmono.
    unfold Calendar.toordinal. lia. }
  assert (Hord : 0 ≤ 30 < Calendar.toordinal (now w)) by lia.
  destruct (sub_days_spec (now w) 30 Hvalid Hord)
    as (from_dt & Hsub & Hfrom & Hday & Hseconds & Hus).
  exists from_dt.
  assert (Hfour : 1000 ≤ Calendar.year from_dt).
  { destruct Hfrom as (Hy & Hm & Hd & _).
    pose proof (CalendarFacts.ymd2ord_bounds _ _ _ Hy Hm Hd) as [[_ Hhigh] _].
    fold (Calendar.toordinal from_dt) in Hhigh.
    destruct (Z.le_gt_cases 1000 (Calendar.year from_dt)) as [|Hshort]; [done|].
    pose proof (CalendarFacts.days_before_year_mono (Calendar.year from_dt + 1) 1000
                  ltac:(lia)) as Hmono.
    change (Calendar._days_before_year 1000) with 364877 in Hmono. lia. }
  assert (Hwindow : _past_30_days_iso (now w)
                    = Ok (Calendar.strftime_iso from_dt, Calendar.strftime_iso (now w))).
  { unfold _past_30_days_iso. by rewrite Hsub. }
  split_and!; try done.
  intros Hanswers. rewrite <- initial_url_iso by (done || lia).
  by apply list_all_recordings_first_request.
Qed.

(** Noon of 4 November 2026: the window starts at noon of 5 October. *)
Lemma initial_request_window_witness :
  _past_30_days_iso noon = Ok ("2026-10-05T12:00:00Z", "2026-11-04T12:00:00Z")
  ∧ ∃ tail,
      (list_all_recordings true three_page_world "secret" "out.csv").1
      = EvSessionGet noon_url "secret" :: tail.
Proof.
  destruct (initial_request_window true three_page_world "secret" "out.csv")
    as (from_dt & Hsub & _ & _ & _ & Hwindow & Hfirst).
  - unfold valid_datetime. repeat split; by vm_compute.
  - by vm_compute.
  - assert (from_dt = Calendar.mk_datetime 2026 10 5 12 0 0 0) as ->.
    { vm_compute in Hsub. congruence. }
    split; [exact Hwindow|]. apply Hfirst. done.
Defined.

(** ** Shape of the timestamps *)

Lemma digit_mod_cases (d : Z) :
  d mod 10 = 0 ∨ d mod 10 = 1 ∨ d mod 10 = 2 ∨ d mod 10 = 3 ∨ d mod 10 = 4
  ∨ d mod 10 = 5 ∨ d mod 10 = 6 ∨ d mod 10 = 7 ∨ d mod 10 = 8 ∨ d mod 10 = 9.
Proof. assert (0 ≤ d mod 10 < 10) by (apply Z.mod_pos_bound; lia). lia. Qed.

Lemma digit_val_digit_char (d : Z) :
  PyInt.digit_val (Calendar.digit_char d) = Some (d mod 10)
  ∧ PyInt.is_blank (Calendar.digit_char d) = false.
Proof.
  unfold Calendar.digit_char.
  destruct (digit_mod_cases d) as [->|[->|[->|[->|[->|[->|[->|[->|[->| ->]]]]]]]]];
    by split.
Qed.

Lemma digits_numeral (ds : list Z) (acc : Z) (count : N) :
  PyInt.digits (numeral ds) acc count
  = Some (numeral_value acc ds, (count + N.of_nat (length ds))%N).
Proof.
  revert acc count. induction ds as [|d ds IH]; intros acc count.
  - cbn. by rewrite N.add_0_r.
  - cbn [numeral PyInt.digits numeral_value length].
    destruct (digit_val_digit_char d) as [-> _]. rewrite IH. do 2 f_equal. lia.
Qed.

Lemma drop_trailing_blanks_numeral (ds : list Z) :
  PyInt.drop_trailing_blanks (numeral ds) = numeral ds.
Proof.
  induction ds as [|d ds IH]; [done|].
  cbn [numeral PyInt.drop_trailing_blanks]. rewrite IH.
  destruct (digit_val_digit_char d) as [_ ->]. by destruct ds.
Qed.

(** A sign is not a digit: a literal that starts with a digit is read as
    unsigned. *)
Lemma unsigned_when_digit (c : ascii) (r : string) :
  is_Some (PyInt.digit_val c) →
  match String c r with
  | String "-" r' => Z.opp <$> PyInt.unsigned_literal r'
  | String "+" r' => PyInt.unsigned_literal r'
  | _ => PyInt.unsigned_literal (String c r)
  end = PyInt.unsigned_literal (String c r).
Proof.
  intros [v Hv]. destruct c as [[] [] [] [] [] [] [] []]; try done.
Qed.

(** [int] reads a decimal numeral of at most 4300 digits as the number it
    denotes. *)
Lemma py_int_numeral (d : Z) (ds : list Z) :
  (length ds < 4300)%nat →
  PyInt.py_int (numeral (d :: ds)) = Ok (numeral_value 0 (d :: ds)).
Proof.
  intros Hlen. unfold PyInt.py_int.
  assert (PyInt.skip_blanks (numeral (d :: ds)) = numeral (d :: ds)) as ->.
  { cbn [numeral PyInt.skip_blanks]. by destruct (digit_val_digit_char d) as [_ ->]. }
  rewrite drop_trailing_blanks_numeral. cbn [numeral].
  rewrite unsigned_when_digit by (destruct (digit_val_digit_char d) as [-> _]; by eexists).
  unfold PyInt.unsigned_literal. destruct (digit_val_digit_char d) as [-> _].
  rewrite digits_numeral. cbn [numeral_value].
  destruct (N.ltb_spec PyInt.int_max_str_digits (1 + N.of_nat (length ds))) as [Hover|_].
  - unfold PyInt.int_max_str_digits in Hover. lia.
  - by rewrite Z.mul_0_r, Z.add_0_l.
Qed.

Lemma py_int_two_digits (n : Z) :
  0 ≤ n < 100 → PyInt.py_int (Calendar.two_digits n) = Ok n.
Proof.
  intros Hn. change (Calendar.two_digits n) with (numeral [n / 10; n]).
  rewrite py_int_numeral by (cbn; lia). f_equal. cbn [numeral_value].
  Z.div_mod_to_equations. lia.
Qed.

Lemma py_int_four_digits (n : Z) :
  0 ≤ n < 10000 → PyInt.py_int (Calendar.four_digits n) = Ok n.
Proof.
  intros Hn.
  change (Calendar.four_digits n)
    with (numeral [n / 100 / 10; n / 100; n mod 100 / 10; n mod 100]).
  rewrite py_int_numeral by (cbn; lia). f_equal. cbn [numeral_value].
  Z.div_mod_to_equations. lia.
Qed.

Lemma length_app_str (a b : string) :
  String.length (a +:+ b) = (String.length a + String.length b)%nat.
Proof. induction a as [|c a IH]; [done|]. rewrite str_app_cons. cbn. by rewrite IH. Qed.

(** The number of characters [%Y] takes. *)
Lemma length_year_digits (y : Z) :
  String.length (Calendar.year_digits y)
  = if (y <? 10)%Z then 1%nat else if (y <? 100)%Z then 2%nat
    else if (y <? 1000)%Z then 3%nat else 4%nat.
Proof. unfold Calendar.year_digits. by repeat case_match. Qed.

Lemma py_int_year_digits (y : Z) :
  0 ≤ y < 10000 → PyInt.py_int (Calendar.year_digits y) = Ok y.
Proof.
  intros Hy. unfold Calendar.year_digits.
  destruct (Z.ltb_spec y 10); [|destruct (Z.ltb_spec y 100); [|destruct (Z.ltb_spec y 1000)]].
  - change (String (Calendar.digit_char y) EmptyString) with (numeral [y]).
    rewrite py_int_numeral by (cbn; lia). f_equal. cbn [numeral_value].
    Z.div_mod_to_equations. lia.
  - apply py_int_two_digits. lia.
  - change (String (Calendar.digit_char (y / 100)) (Calendar.two_digits y))
      with (numeral [y / 100; y / 10; y]).
    rewrite py_int_numeral by (cbn; lia). f_equal. cbn [numeral_value].
    Z.div_mod_to_equations. lia.
  - by apply py_int_four_digits.
Qed.





(** ** Entry point: exit status *)

(** X6.  Once a credential is given, the process ends as the driver's
    outcome dictates: status 0 after a return, with the final count as the
    last thing printed; the code of a [SystemExit]; status 1 after any
    other exception. *)
Theorem main_exit_status (w : World) (line : string) :
  stdin w = InputLine line →
  PyStr.truthy (PyStr.strip line) = true →
  let run := list_all_recordings true w (PyStr.strip line) DEFAULT_CSV_FILENAME in
  (main true w).2 = exit_of run.2
  ∧ (∀ count, run.2 = Returned count →
       main true w = (EvPrompt :: run.1 ++ [EvStdout (MsgFinalCount count)], Exited 0)).
Proof.
  intros Hstdin Htoken run. unfold main, get_token_from_user. cbn [negb].
  rewrite Hstdin, Htoken. cbn [negb]. fold run.
  destruct run as [ran outcome]. cbn [fst snd].
  destruct outcome as [count|e|]; [|destruct e|]; cbn [exit_of fst snd].
  all: split; [done|]; by intros ? [= <-].
Qed.

(** The run of three pages ends with status 0 and prints 5. *)
Lemma main_exit_status_witness :
  (main true three_page_world).2 = Exited 0
  ∧ last (main true three_page_world).1 = Some (EvStdout (MsgFinalCount 5)).
Proof.
  destruct (main_exit_status three_page_world "secret") as (Hexit & Hreturned).
  - reflexivity.
  - reflexivity.
  - cbv zeta in Hexit, Hreturned. rewrite (Hreturned 5%nat); [|reflexivity].
    split; [reflexivity|]. cbn [fst]. by rewrite app_comm_cons, last_snoc.
Defined.

(** X7.  Without a credential (end of input, an interrupt, or a line that
    is blank once stripped) the entry point prompts, prints one message and
    exits with status 1; it makes no request and touches no file. *)
Theorem main_without_token (w : World) :
  stdin w = InputEOF ∨ stdin w = InputInterrupt
  ∨ (∃ line, stdin w = InputLine line ∧ PyStr.strip line = EmptyString) →
  ∃ m, main true w = ([EvPrompt; EvStderr m], Exited 1).
Proof.
  unfold main, get_token_from_user. cbn [negb].
  intros [->|[->|(line & -> & ->)]]; by eexists.
Qed.

(** End of input at the prompt. *)
Lemma main_without_token_witness :
  main true world_no_token = ([EvPrompt; EvStderr MsgAborted], Exited 1).
Proof.
  destruct (main_without_token world_no_token) as [m Hmain].
  - by left.
  - rewrite Hmain. revert Hmain. by intros [= <-].
Defined.

(** ** [str.strip] *)

Lemma lstrip_spec (s : string) :
  ∃ l, s = l +:+ PyStr.lstrip s ∧ all_space l = true ∧ head_not_space (PyStr.lstrip s).
Proof.
  induction s as [|c s (l & Hs & Hl & Hhead)]; [by exists EmptyString|].
  cbn [PyStr.lstrip]. destruct (PyStr.isspace c) eqn:Hc.
  - exists (String c l). rewrite str_app_cons, <- Hs. cbn [all_space]. by rewrite Hc, Hl.
  - by exists EmptyString.
Qed.

Lemma rstrip_spec (s : string) :
  ∃ r, s = PyStr.rstrip s +:+ r ∧ all_space r = true ∧ last_not_space (PyStr.rstrip s)
       ∧ (head_not_space s → head_not_space (PyStr.rstrip s)).
Proof.
  induction s as [|c s (r & Hs & Hr & Hlast & _)]; [by exists EmptyString|].
  cbn [PyStr.rstrip]. destruct (PyStr.rstrip s) as [|c' s'] eqn:Hrs.
  - rewrite str_app_nil_l in Hs. subst r. destruct (PyStr.isspace c) eqn:Hc.
    + exists (String c s). split_and!; [done| |done|by cbn; rewrite Hc].
      cbn [all_space]. by rewrite Hc, Hr.
    + exists s. by split_and!.
  - exists r. split_and!; [by rewrite str_app_cons, <- Hs|done|done|done].
Qed.

(** X8.  [strip] removes a blank prefix and a blank suffix and nothing
    else, and what it leaves neither starts nor ends with a blank. *)
Theorem strip_spec (s : string) :
  ∃ l r,
    s = l +:+ PyStr.strip s +:+ r
    ∧ all_space l = true ∧ all_space r = true
    ∧ head_not_space (PyStr.strip s) ∧ last_not_space (PyStr.strip s).
Proof.
  destruct (lstrip_spec s) as (l & Hs & Hl & Hhead).
  destruct (rstrip_spec (PyStr.lstrip s)) as (r & Hls & Hr & Hlast & Hkeep).
  exists l, r. unfold PyStr.strip. split_and!; auto. by rewrite <- Hls.
Qed.

(** ** One iteration of the driver, whatever the answer *)

Lemma not_rate_limit_failure (has_requests : bool) (a : NetResult) (e : exn) :
  failure_of has_requests a = Some e →
  e = ConnectionError ∨ (∃ s, e = HTTPError s) ∨ e = JSONDecodeError.
Proof.
  destruct a as [|r]; cbn [failure_of]; [intros [= <-]; by left|].
  repeat case_match; intros [= <-]; eauto.
Qed.

Lemma fetch_page_failure (has_requests : bool) (url token : string)
    (a : NetResult) (e : exn) :
  failure_of has_requests a = Some e →
  fetch_page has_requests url token a = (get_event has_requests url token, Err e).
Proof.
  destruct a as [|r]; cbn [failure_of].
  { intros [= <-]. by destruct has_requests. }
  unfold status_ok, fetch_page, raise_for_status, get_event.
  destruct (status_code r =? 429)%Z; [done|]. cbn [negb andb].
  destruct has_requests.
  - destruct ((400 <=? status_code r) && (status_code r <? 600)); cbn [negb].
    + by intros [= <-].
    + destruct (body r); [done|]. by intros [= <-].
  - destruct ((200 <=? status_code r) && (status_code r <? 300)); cbn [negb].
    + destruct (body r); [done|]. by intros [= <-].
    + by intros [= <-].
Qed.

(** Every answer is a rate-limit signal, a response that is fetched, or a
    failure. *)
Lemma answer_cases (has_requests : bool) (a : NetResult) :
  (∃ r, a = Answer r ∧ rate_limited r)
  ∨ (∃ r data, a = Answer r ∧ status_ok has_requests r = true ∧ body r = Some data)
  ∨ (∃ e, failure_of has_requests a = Some e).
Proof.
  destruct a as [|r]; [right; right; by eexists|]. cbn [failure_of].
  destruct (Z.eqb_spec (status_code r) 429) as [H429|_]; [left; by eexists|].
  right. destruct (status_ok has_requests r) eqn:Hst; cbn [negb]; [|right; by eexists].
  destruct (body r) as [data|] eqn:Hbody; [left; by eexists _, _|right; by eexists].
Qed.

Section Step.

Variable has_requests : bool.
Variable token : string.

Local Abbreviation paginate := (paginate has_requests token).
Local Abbreviation GET url := (get_event has_requests url token).

Lemma paginate_failure (a : NetResult) (e : exn) (rest : list NetResult)
    (url : string) (all_items : list JSON) (c : Z) :
  failure_of has_requests a = Some e →
  paginate (a :: rest) url all_items c
  = ([GET url; EvStderr (failure_message has_requests e)], Aborted e).
Proof.
  intros Hfail. cbn [paginate]. rewrite (fetch_page_failure _ _ _ _ _ Hfail).
  by destruct (not_rate_limit_failure _ _ _ Hfail) as [->|[[s ->]| ->]].
Qed.

(** The three ways an iteration can go: a round of back-off on the same
    URL, a page that leads to the next URL, or the end of the loop after
    the request and at most a message. *)
Lemma paginate_step (a : NetResult) (rest : list NetResult)
    (url : string) (all_items : list JSON) (c : Z) :
  (∃ r, a = Answer r ∧ rate_limited r ∧ 0 ≤ wait_of has_requests r
        ∧ paginate (a :: rest) url all_items c
          = after (backoff_round has_requests url token r)
              (paginate rest url all_items (c + 1)))
  ∨ (∃ r next, a = Answer r ∧ is_page has_requests r ∧ following has_requests r = Some next
        ∧ paginate (a :: rest) url all_items c
          = after [GET url] (paginate rest next (all_items ++ items_of r) 0))
  ∨ (∃ said exit, paginate (a :: rest) url all_items c = (GET url :: said, exit)
        ∧ Forall (λ ev, is_stderr ev = true) said ∧ terminal exit).
Proof.
  destruct (answer_cases has_requests a)
    as [(r & -> & H429)|[(r & data & -> & Hst & Hbody)|(e & Hfail)]].
  - rewrite paginate_429 by done.
    destruct (MAX_429_RETRIES <? c + 1)%Z;
      [right; right; eexists _, _; split; [done|]; by repeat constructor|].
    destruct (Z.ltb_spec (wait_of has_requests r) 0) as [|Hwait];
      [right; right; eexists _, _; split; [done|]; by repeat constructor|].
    left. by exists r.
  - destruct (page_items r) as [items|] eqn:Hitems.
    + assert (Hpage : is_page has_requests r) by (split; [done|by eexists]).
      rewrite paginate_page by done.
      destruct (following has_requests r) as [next|] eqn:Hnext.
      * right; left. by exists r, next.
      * right; right. eexists _, _. split; [done|]. by split; [constructor|].
    + right; right.
      destruct (paginate_no_items has_requests token r data rest url all_items c
                  Hst Hbody Hitems) as [-> | ->];
        eexists _, _; (split; [done|]); by repeat constructor.
  - right; right. rewrite (paginate_failure _ _ _ _ _ _ Hfail).
    eexists _, _. split; [done|]. by repeat constructor.
Qed.

End Step.

(** ** Failed fetches *)

(** X9.  After any number of successful pages, an answer that is neither
    a page nor a rate-limit signal (no connection, an error status, a body
    that is not JSON) ends the run with the fetcher's exception: the
    request, one message, and nothing else; no retry, no sleep, no file,
    and the process would exit with status 1. *)
Theorem fetch_failure_aborts (has_requests : bool) (w : World) (token csv_path : string)
    (pages : list Response) (a : NetResult) (rest : list NetResult)
    (window : string * string) (e : exn) :
  _past_30_days_iso (now w) = Ok window →
  answers w = (Answer <$> pages) ++ a :: rest →
  Forall (is_page has_requests) pages →
  Forall (λ r, is_Some (following has_requests r)) pages →
  failure_of has_requests a = Some e →
  let url := initial_url window.1 window.2 in
  list_all_recordings has_requests w token csv_path
  = (((λ u, get_event has_requests u token) <$> requested has_requests url pages)
       ++ [get_event has_requests (url_after has_requests url pages) token;
           EvStderr (failure_message has_requests e)],
     Raised e)
  ∧ exit_of (Raised e) = Exited 1.
Proof.
  intros Hwindow Hanswers Hpages Hnext Hfail url. split.
  - unfold list_all_recordings. rewrite Hwindow. destruct window as [from_iso to_iso].
    cbn [fst snd] in *. fold url. rewrite Hanswers.
    rewrite paginate_pages by done. rewrite (paginate_failure _ _ _ _ _ _ _ _ Hfail).
    by unfold after.
  - by destruct (not_rate_limit_failure _ _ _ Hfail) as [->|[[s ->]| ->]].
Qed.

(** A 503 after one good page. *)
Lemma fetch_failure_aborts_witness :
  list_all_recordings true world_503 "secret" "out.csv"
  = ([EvSessionGet noon_url "secret"; EvSessionGet "https://x/p2" "secret";
      EvStderr (MsgApiError (HTTPError 503))],
     Raised (HTTPError 503)).
Proof.
  destruct (fetch_failure_aborts true world_503 "secret" "out.csv"
              [page [recording "a"] (Some "https://x/p2")]
              (Answer (mk_response 503 [] None))
              [Answer (page [] None)]
              ("2026-10-05T12:00:00Z", "2026-11-04T12:00:00Z") (HTTPError 503))
    as [Hrun _].
  - by vm_compute.
  - reflexivity.
  - each_element ltac:(apply page_is_page).
  - each_element ltac:(by eexists; vm_compute).
  - reflexivity.
  - exact Hrun.
Defined.

(** A field that comes on one line at most is read alike by both clients. *)
Lemma headers_get_single_line (r : Response) (name : string) :
  single_line r name → headers_get true r name = headers_get false r name.
Proof.
  unfold single_line, headers_get.
  destruct (header_lines r name) as [|first [|second more]]; cbn; [done..|lia].
Qed.



(** ** Counts *)

Lemma filter_file_loop (has_requests : bool) (evs : Trace) :
  Forall (loop_event has_requests) evs →
  List.filter is_row evs = [] ∧ List.filter is_header evs = [].
Proof.
  intros Hevs. induction Hevs as [|ev evs Hev _ [IHr IHh]]; [done|].
  cbn. by destruct ev.
Qed.

Lemma filter_is_row_rows (items : list JSON) :
  List.filter is_row (EvWriteRow ∘ cells_of <$> items) = (EvWriteRow ∘ cells_of <$> items)
  ∧ List.filter is_open (EvWriteRow ∘ cells_of <$> items) = []
  ∧ List.filter is_header (EvWriteRow ∘ cells_of <$> items) = [].
Proof. induction items as [|item items (IH1 & IH2 & IH3)]; [done|]. cbn. by rewrite IH1. Qed.

(** X11.  Whenever the driver returns a count, that count is the number of
    data rows it wrote: the file was opened once, given one header and
    exactly [count] rows, and the last thing the run did was to report
    that same count. *)
Theorem returned_count_is_rows_written (has_requests : bool) (w : World)
    (token csv_path : string) (count : nat) :
  (list_all_recordings has_requests w token csv_path).2 = Returned count →
  let t := (list_all_recordings has_requests w token csv_path).1 in
  length (List.filter is_row t) = count
  ∧ length (List.filter is_open t) = 1%nat
  ∧ length (List.filter is_header t) = 1%nat
  ∧ last t = Some (EvStderr (MsgSaved count csv_path)).
Proof.
  unfold list_all_recordings.
  destruct (_past_30_days_iso (now w)) as [[from_iso to_iso]|e]; [|done].
  pose proof (paginate_events has_requests token (answers w)
                (initial_url from_iso to_iso) [] 0) as Hloop.
  destruct (paginate has_requests token (answers w) (initial_url from_iso to_iso) [] 0)
    as [fetched exit].
  cbn [fst] in Hloop.
  destruct (filter_file_loop _ _ Hloop) as [Hrow Hheader].
  pose proof (filter_is_open_loop _ _ Hloop) as Hopen.
  destruct exit as [all_items|e|url items c]; [|done..].
  unfold write_recordings_csv. destruct (writable w); [|done].
  destruct (write_rows (writerow_error w) all_items) as [rows [[]|e]] eqn:Hrows;
    unfold after; cbn [fst snd];
    [|done].
  apply write_rows_ok in Hrows as [-> _].
  destruct (filter_is_row_rows all_items) as (Hr1 & Hr2 & Hr3).
  intros [= <-]. cbn [fst app]. rewrite !List.filter_app, Hrow, Hopen, Hheader.
  cbn [List.filter is_row is_open is_header app].
  rewrite !List.filter_app, Hr1, Hr2, Hr3. cbn. rewrite length_app, length_fmap. cbn.
  split_and!; [lia|done|done|].
  by rewrite !app_comm_cons, List.app_assoc, last_snoc.
Qed.

(** The run of three pages: five rows for a count of 5. *)
Lemma returned_count_is_rows_written_witness :
  length (List.filter is_row (list_all_recordings true three_page_world "secret" "out.csv").1)
  = 5%nat.
Proof.
  destruct (returned_count_is_rows_written true three_page_world "secret" "out.csv" 5%nat)
    as [Hrows _].
  - reflexivity.
  - exact Hrows.
Defined.

(** ** Sleeps and requests of a run *)

Lemma sleeps_app (a b : Trace) : sleeps (a ++ b) = sleeps a ++ sleeps b.
Proof. apply omap_app. Qed.

Lemma gets_app (a b : Trace) : gets (a ++ b) = gets a ++ gets b.
Proof. apply omap_app. Qed.

Lemma stderr_only (said : Trace) :
  Forall (λ ev, is_stderr ev = true) said → sleeps said = [] ∧ gets said = [].
Proof.
  intros Hsaid. induction Hsaid as [|ev said Hev _ [IHs IHg]]; [done|].
  by destruct ev.
Qed.

Lemma file_events_only (evs : Trace) :
  Forall (λ ev, file_event ev = true) evs → sleeps evs = [] ∧ gets evs = [].
Proof.
  intros Hevs. induction Hevs as [|ev evs Hev _ [IHs IHg]]; [done|].
  by destruct ev.
Qed.

Lemma gets_get_event (has_requests : bool) (url token : string) (t : Trace) :
  gets (get_event has_requests url token :: t) = (url, token) :: gets t
  ∧ sleeps (get_event has_requests url token :: t) = sleeps t.
Proof. by destruct has_requests. Qed.

Lemma wait_of_le_cap (has_requests : bool) (r : Response) : wait_of has_requests r ≤ 300.
Proof.
  unfold wait_of. rewrite retry_wait_sec_unfold. unfold RETRY_AFTER_CAP_SECONDS. lia.
Qed.

Lemma paginate_sleeps (has_requests : bool) (token : string) (answers : list NetResult)
    (url : string) (all_items : list JSON) (c : Z) :
  Forall (λ s, 0 ≤ s ≤ 300) (sleeps (paginate has_requests token answers url all_items c).1)
  ∧ (length (sleeps (paginate has_requests token answers url all_items c).1)
     ≤ length (gets (paginate has_requests token answers url all_items c).1))%nat.
Proof.
  revert url all_items c. induction answers as [|a rest IH]; intros url all_items c.
  { by split; [constructor|]. }
  destruct (paginate_step has_requests token a rest url all_items c)
    as [(r & _ & _ & Hwait & ->)|[(r & next & _ & _ & _ & ->)|(said & exit & -> & Hsaid & _)]].
  - destruct (IH url all_items (c + 1)) as [IHs IHl].
    unfold after, backoff_round. cbn [fst app].
    set (wait := wait_of has_requests r).
    set (later := (paginate has_requests token rest url all_items (c + 1)).1) in *.
    destruct (gets_get_event has_requests url token
                (EvStderr (MsgRateLimitWait wait) :: EvSleep wait :: later))
      as [-> ->].
    change (sleeps (EvStderr (MsgRateLimitWait wait) :: EvSleep wait :: later))
      with (wait :: sleeps later).
    change (gets (EvStderr (MsgRateLimitWait wait) :: EvSleep wait :: later))
      with (gets later).
    split.
    + constructor; [|done]. pose proof (wait_of_le_cap has_requests r). lia.
    + cbn [length]. lia.
  - destruct (IH next (all_items ++ items_of r) 0) as [IHs IHl].
    unfold after. cbn [fst app].
    destruct (gets_get_event has_requests url token
                (paginate has_requests token rest next (all_items ++ items_of r) 0).1)
      as [-> ->].
    split; [done|]. cbn [length]. lia.
  - cbn [fst]. destruct (gets_get_event has_requests url token said) as [-> ->].
    destruct (stderr_only _ Hsaid) as [-> ->]. split; [constructor|cbn; lia].
Qed.

(** The sleeps and the requests of a run are those of its loop. *)
Lemma run_sleeps_gets (has_requests : bool) (w : World) (token csv_path : string) :
  let t := (list_all_recordings has_requests w token csv_path).1 in
  match loop_of has_requests w token with
  | Some (fetched, _) => sleeps t = sleeps fetched ∧ gets t = gets fetched
  | None => t = []
  end.
Proof.
  unfold loop_of, list_all_recordings.
  destruct (_past_30_days_iso (now w)) as [[from_iso to_iso]|e]; [|done].
  destruct (paginate has_requests token (answers w) (initial_url from_iso to_iso) [] 0)
    as [fetched exit].
  destruct exit as [all_items|e|url items c]; [|done..].
  pose proof (write_recordings_csv_file_events (writerow_error w) (writable w) all_items
                csv_path) as Hfile.
  destruct (write_recordings_csv (writable w) (writerow_error w) all_items csv_path)
    as [written [[]|e]];
    cbn [fst] in *; destruct (file_events_only _ Hfile) as [Hs Hg].
  - by rewrite !sleeps_app, !gets_app, Hs, Hg, !List.app_nil_r.
  - by rewrite !sleeps_app, !gets_app, Hs, Hg, !List.app_nil_r.
Qed.

(** X12.  Every sleep of a run lasts between 0 and 300 seconds, whatever
    the [Retry-After] headers say, and a run never sleeps more often than
    it makes requests. *)
Theorem sleeps_bounded (has_requests : bool) (w : World) (token csv_path : string) :
  let t := (list_all_recordings has_requests w token csv_path).1 in
  Forall (λ s, 0 ≤ s ≤ 300) (sleeps t)
  ∧ (length (sleeps t) ≤ length (gets t))%nat.
Proof.
  pose proof (run_sleeps_gets has_requests w token csv_path) as Hrun.
  cbv zeta in *. unfold loop_of in Hrun.
  destruct (_past_30_days_iso (now w)) as [[from_iso to_iso]|e].
  - pose proof (paginate_sleeps has_requests token (answers w)
                  (initial_url from_iso to_iso) [] 0) as Hloop.
    destruct (paginate has_requests token (answers w) (initial_url from_iso to_iso) [] 0)
      as [fetched exit].
    destruct Hrun as [-> ->]. exact Hloop.
  - rewrite Hrun. by split; [constructor|].
Qed.

Lemma paginate_gets (has_requests : bool) (token : string) (answers : list NetResult)
    (url : string) (all_items : list JSON) (c : Z) :
  Forall (λ g, g.2 = token
               ∧ (g.1 = url
                  ∨ ∃ r, Answer r ∈ answers ∧ following has_requests r = Some g.1))
    (gets (paginate has_requests token answers url all_items c).1).
Proof.
  revert url all_items c. induction answers as [|a rest IH]; intros url all_items c.
  { constructor. }
  assert (Hweaken : ∀ u t,
    Forall (λ g, g.2 = token
                 ∧ (g.1 = u ∨ ∃ r, Answer r ∈ rest ∧ following has_requests r = Some g.1))
      (gets t) →
    (u = url ∨ ∃ r, Answer r ∈ a :: rest ∧ following has_requests r = Some u) →
    Forall (λ g, g.2 = token
                 ∧ (g.1 = url
                    ∨ ∃ r, Answer r ∈ a :: rest ∧ following has_requests r = Some g.1))
      (gets (get_event has_requests url token :: t))).
  { intros u t Ht Hu. destruct (gets_get_event has_requests url token t) as [-> _].
    constructor; [by split; [|left]|].
    eapply Forall_impl; [done|]. intros [g1 g2] [Hk Hg]. split; [done|]. cbn [fst] in *.
    destruct Hg as [->|(r & Hr & Hf)]; [done|].
    right. exists r. split; [by right|done]. }
  destruct (paginate_step has_requests token a rest url all_items c)
    as [(r & _ & _ & _ & ->)|[(r & next & -> & _ & Hnext & ->)|(said & exit & -> & Hsaid & _)]].
  - unfold after, backoff_round. cbn [fst app].
    apply (Hweaken url); [|by left].
    apply (IH url all_items (c + 1)).
  - unfold after. cbn [fst app]. apply (Hweaken next); [apply IH|].
    right. exists r. split; [by left|done].
  - cbn [fst]. destruct (gets_get_event has_requests url token said) as [-> _].
    destruct (stderr_only _ Hsaid) as [_ ->]. constructor; [|constructor].
    by split; [|left].
Qed.

Lemma run_gets_sources (has_requests : bool) (w : World) (token csv_path : string) :
  Forall (λ g, g.2 = token ∧ url_source has_requests w g.1)
    (gets (list_all_recordings has_requests w token csv_path).1).
Proof.
  pose proof (run_sleeps_gets has_requests w token csv_path) as Hrun.
  cbv zeta in *. unfold loop_of in Hrun. unfold url_source.
  destruct (_past_30_days_iso (now w)) as [[from_iso to_iso]|e].
  - pose proof (paginate_gets has_requests token (answers w)
                  (initial_url from_iso to_iso) [] 0) as Hloop.
    destruct (paginate has_requests token (answers w) (initial_url from_iso to_iso) [] 0)
      as [fetched exit].
    destruct Hrun as [_ ->]. cbn [fst] in Hloop.
    eapply Forall_impl; [done|]. intros g [Hk [Hg|Hg]]; (split; [done|]).
    + left. by exists from_iso, to_iso.
    + by right.
  - rewrite Hrun. constructor.
Qed.

(** X13.  Every call of the HTTP client in a run ([session.get] or
    [urlopen], as the page fetcher issues them) is given the credential
    the driver was given, and as its address either the initial URL or a
    URL that the [Link] header of one of the answers named as next: the
    driver asks for no other address.  What the client does within a call,
    such as following a redirect, is not part of the trace. *)
Theorem requests_follow_links (has_requests : bool) (w : World) (token csv_path : string) :
  Forall (λ g, g.2 = token ∧ url_source has_requests w g.1)
    (gets (list_all_recordings has_requests w token csv_path).1).
Proof. apply run_gets_sources. Qed.

(** ** Row mapper: domain and cells *)

(** X14.  The row mapper succeeds on exactly the records: the mappings
    whose [serviceData] is absent, falsy or a mapping.  On anything else
    (an item that is no mapping, or a [serviceData] that is a non-empty
    string, a non-zero number, [true] or a non-empty list) it raises
    [AttributeError]. *)
Theorem item_to_row_succeeds_iff_record (item : JSON) :
  (is_record item ∧ ∃ row, _item_to_row item = Ok row)
  ∨ (¬ is_record item ∧ _item_to_row item = Err AttributeError).
Proof. apply item_to_row_cases. Qed.

Lemma column_values (m : gmap string JSON) :
  dict_to_cells (expected_row m) = column_value m <$> CSV_FIELDNAMES.
Proof. unfold dict_to_cells, expected_row. by vm_compute. Qed.

(** X15.  The cells of a record's row stand in the order of the header:
    the cell under each column name is the record's value for that name
    (for the last two, the nested mapping's), or the empty string.  Keys
    other than the 14 the mapper reads change nothing. *)
Theorem row_cells_in_header_order (m : gmap string JSON) :
  service_data_usable m →
  cells_of (JObj m) = column_value m <$> CSV_FIELDNAMES
  ∧ (∀ i key, CSV_FIELDNAMES !! i = Some key →
       cells_of (JObj m) !! i = Some (column_value m key))
  ∧ (∀ m' : gmap string JSON,
       Forall (λ key, m' !! key = m !! key) ("serviceData" :: TOP_LEVEL_FIELDS) →
       cells_of (JObj m') = cells_of (JObj m)).
Proof.
  intros Husable.
  assert (Hcells : ∀ m0 : gmap string JSON, service_data_usable m0 →
            cells_of (JObj m0) = column_value m0 <$> CSV_FIELDNAMES).
  { intros m0 H0. unfold cells_of. rewrite item_to_row_usable by done. apply column_values. }
  split; [by apply Hcells|]. split.
  - intros i key Hkey. rewrite Hcells by done. by rewrite list_lookup_fmap, Hkey.
  - intros m' Hsame. apply Forall_cons in Hsame as [Hsd Htop].
    assert (service_data_usable m') as Husable'.
    { unfold service_data_usable in *. by rewrite Hsd. }
    rewrite !Hcells by done.
    assert (Hnested : nested_service_data m' = nested_service_data m).
    { unfold nested_service_data. by rewrite Hsd. }
    apply list_eq_Forall2, Forall2_fmap, Forall_Forall2_diag.
    change CSV_FIELDNAMES with (TOP_LEVEL_FIELDS ++ NESTED_FIELDS).
    apply Forall_app. split.
    + assert (Htop' : Forall (λ key, bool_decide (key ∈ NESTED_FIELDS) = false) TOP_LEVEL_FIELDS).
      { by repeat constructor. }
      rewrite Forall_forall in Htop, Htop'. apply Forall_forall. intros key Hkey.
      unfold column_value. by rewrite (Htop' key Hkey), (Htop key Hkey).
    + apply Forall_forall. intros key Hkey. unfold column_value.
      by rewrite bool_decide_eq_true_2, Hnested.
Qed.

(** A record with an extra key and a nested location. *)
Lemma row_cells_in_header_order_witness :
  cells_of (JObj {[ "id" := JStr "r1"; "extra" := JInt 7;
                    "serviceData" := JObj {[ "locationId" := JStr "L" ]} ]}) !! 13%nat
  = Some (JStr "L").
Proof.
  destruct (row_cells_in_header_order
              {[ "id" := JStr "r1"; "extra" := JInt 7;
                 "serviceData" := JObj {[ "locationId" := JStr "L" ]} ]})
    as (_ & Hcell & _).
  - right. by eexists.
  - by rewrite (Hcell 13%nat "locationId").
Defined.

(** ** Failures of the final write *)



(** ** Link header: what is found and what is not *)

Lemma occurs_in_trans (a b c : string) : occurs_in a b → occurs_in b c → occurs_in a c.
Proof.
  intros (x & y & ->) (x' & y' & ->). exists (x' +:+ x), (y +:+ y').
  by rewrite !str_app_assoc.
Qed.

Lemma occurs_in_refl (s : string) : occurs_in s s.
Proof. exists EmptyString, EmptyString. by rewrite str_app_nil_r. Qed.

Lemma strip_ends (s : string) :
  occurs_in (PyStr.strip s) s
  ∧ head_not_space (PyStr.strip s) ∧ last_not_space (PyStr.strip s).
Proof.
  destruct (lstrip_spec s) as (l & Hs & _ & Hhead).
  destruct (rstrip_spec (PyStr.lstrip s)) as (r & Hls & _ & Hlast & Hkeep).
  unfold PyStr.strip. split; [|by auto].
  exists l, r. by rewrite <- Hls.
Qed.

Lemma part_occurs_in_join (sep p : string) (parts : list string) :
  p ∈ parts → occurs_in p (Url.join sep parts).
Proof.
  induction parts as [|q parts IH]; [by intros ?%elem_of_nil|].
  intros [->|Hp]%elem_of_cons.
  - destruct parts as [|q' parts]; [apply occurs_in_refl|].
    exists EmptyString, (sep +:+ Url.join sep (q' :: parts)). done.
  - destruct parts as [|q' parts]; [by apply elem_of_nil in Hp|].
    eapply occurs_in_trans; [by apply IH|].
    exists (q +:+ sep), EmptyString.
    change (Url.join sep (q :: q' :: parts)) with (q +:+ sep +:+ Url.join sep (q' :: parts)).
    by rewrite str_app_assoc, str_app_nil_r.
Qed.

(** The guard on the empty header changes nothing: the loop finds nothing
    in it either. *)
Lemma parse_link_header_parts (h : string) :
  parse_link_header h = parse_link_parts (PyStr.split "," h).
Proof. by destruct h. Qed.

(** What a URL returned by the parser is made of. *)
Lemma parse_link_header_found (h u : string) :
  parse_link_header h = Some u →
  ∃ p seg g, p ∈ PyStr.split "," h ∧ seg = PyStr.strip p
    ∧ rel_next_segment seg ∧ bracketed seg g ∧ u = PyStr.strip g.
Proof.
  rewrite parse_link_header_parts, parse_link_parts_spec.
  intros (before & seg & later & g & Heq & Hrel & Hg & -> & _).
  assert (seg ∈ PyStr.strip <$> PyStr.split "," h) as Hseg.
  { rewrite Heq. apply elem_of_app. right. by left. }
  apply list_elem_of_fmap in Hseg as (p & -> & Hp). by exists p, (PyStr.strip p), g.
Qed.

Lemma bracketed_occurs (seg g : string) :
  bracketed seg g → occurs_in g seg ∧ g ≠ EmptyString ∧ ¬ occurs_in ">" g.
Proof.
  intros (pre & post & -> & Hg & Hno & _). split; [|done].
  exists (pre +:+ "<"), (">" +:+ post). by rewrite !str_app_assoc.
Qed.

(** X17.  A URL the parser returns is a piece of the header itself; it
    holds no comma and no [>], and neither starts nor ends with a
    blank.  (It may be empty, which the driver reads as no next page.) *)
Theorem parse_link_header_url_shape (h u : string) :
  parse_link_header h = Some u →
  occurs_in u h
  ∧ ¬ occurs_in "," u ∧ ¬ occurs_in ">" u
  ∧ head_not_space u ∧ last_not_space u.
Proof.
  intros (p & seg & g & Hp & -> & _ & Hg & ->)%parse_link_header_found.
  destruct (bracketed_occurs _ _ Hg) as (Hgseg & _ & Hgt).
  destruct (strip_ends g) as (Hug & Hhead & Hlast).
  destruct (strip_ends p) as (Hsegp & _ & _).
  destruct (split_join "," h) as [Hjoin Hcomma].
  assert (Hup : occurs_in (PyStr.strip g) p) by eauto using occurs_in_trans.
  split_and!; try done.
  - rewrite <- Hjoin. eapply occurs_in_trans; [done|]. by apply part_occurs_in_join.
  - intros Hc. rewrite Forall_forall in Hcomma. apply (Hcomma p Hp).
    eauto using occurs_in_trans.
  - intros Hc. apply Hgt. eauto using occurs_in_trans.
Qed.

(** The URL of the example header. *)
Lemma parse_link_header_url_shape_witness :
  occurs_in "https://x/y?cursor=2" header_cursor_2
  ∧ ¬ occurs_in "," "https://x/y?cursor=2".
Proof.
  destruct (parse_link_header_url_shape header_cursor_2 "https://x/y?cursor=2")
    as (Hpiece & Hcomma & _).
  - by vm_compute.
  - by split.
Defined.

(** X18.  A header in which neither [rel="next"] nor [rel='next'] occurs
    yields no URL, whatever else it holds. *)
Theorem no_rel_next_no_url (h : string) :
  ¬ occurs_in rel_next_double h →
  ¬ occurs_in rel_next_single h →
  parse_link_header h = None.
Proof.
  intros Hdouble Hsingle.
  destruct (parse_link_header h) as [u|] eqn:Hparse; [|done]. exfalso.
  apply parse_link_header_found in Hparse as (p & seg & g & Hp & -> & Hrel & _).
  destruct (strip_ends p) as (Hsegp & _ & _).
  destruct (split_join "," h) as [Hjoin _].
  assert (Hph : occurs_in p h).
  { rewrite <- Hjoin. by apply part_occurs_in_join. }
  destruct Hrel as [Hrel|Hrel]; [apply Hdouble|apply Hsingle];
    eauto using occurs_in_trans.
Qed.

(** A header with a previous-page link only. *)
Lemma no_rel_next_no_url_witness : parse_link_header header_prev_only = None.
Proof.
  apply no_rel_next_no_url.
  - intros Hocc%contains_spec. by vm_compute in Hocc.
  - intros Hocc%contains_spec. by vm_compute in Hocc.
Defined.

Lemma split_comma_free (p : string) :
  ¬ occurs_in "," p → PyStr.split "," p = [p].
Proof.
  induction p as [|c p IH]; [done|]. intros Hno.
  assert (c ≠ ","%char) as Hc.
  { intros ->. apply Hno. by exists EmptyString, p. }
  destruct (split_cons_ne "," c p Hc) as (q & qs & Hs & ->).
  rewrite IH in Hs; [by simplify_eq|].
  intros (a & b & ->). apply Hno. by exists (String c a), b.
Qed.

Lemma split_app_comma (p s : string) :
  ¬ occurs_in "," p → PyStr.split "," (p +:+ "," +:+ s) = p :: PyStr.split "," s.
Proof.
  induction p as [|c p IH]; intros Hno.
  - rewrite str_app_nil_l, str_app_cons, str_app_nil_l. cbn [PyStr.split].
    by rewrite Ascii.eqb_refl.
  - assert (c ≠ ","%char) as Hc.
    { intros ->. apply Hno. by exists EmptyString, p. }
    rewrite str_app_cons.
    destruct (split_cons_ne "," c (p +:+ "," +:+ s) Hc) as (q & qs & Hs & ->).
    rewrite IH in Hs; [by simplify_eq|].
    intros (a & b & ->). apply Hno. by exists (String c a), b.
Qed.

(** [split] undoes [join] on segments without commas. *)
Lemma split_of_join (p : string) (parts : list string) :
  Forall (λ q, ¬ occurs_in "," q) (p :: parts) →
  PyStr.split "," (Url.join "," (p :: parts)) = p :: parts.
Proof.
  revert p. induction parts as [|q parts IH]; intros p [Hp Hparts]%Forall_cons.
  - by apply split_comma_free.
  - change (Url.join "," (p :: q :: parts)) with (p +:+ "," +:+ Url.join "," (q :: parts)).
    rewrite split_app_comma by done. by rewrite IH.
Qed.

Lemma link_value_next (u : string) :
  u ≠ EmptyString → ¬ occurs_in ">" u →
  rel_next_segment (link_value u "next") ∧ bracketed (link_value u "next") u.
Proof.
  intros Hu Hgt. split.
  - left. exists ("<" +:+ u +:+ ">; "), EmptyString.
    unfold link_value, rel_next_double. by rewrite !str_app_assoc, str_app_nil_r.
  - exists EmptyString, ("; rel=" +:+ PyStr.dquote +:+ "next" +:+ PyStr.dquote).
    split_and!; [|done|done|apply only_empty_brackets_nil].
    unfold link_value. rewrite str_app_nil_l. do 2 f_equal.
Qed.

(** X19.  Building a header and parsing it gives the URL back.  In a
    header of comma-free segments, if a segment is, once stripped, the link
    [<u>; rel="next"], no segment before it carries the relation [next],
    and [u] is not empty, holds no [>] and has no blank at either end, then
    the parser returns [u], whatever the segments after it. *)
Theorem parse_link_header_round_trip (before : list string) (seg : string)
    (later : list string) (u : string) :
  Forall (λ p, ¬ occurs_in "," p) (before ++ seg :: later) →
  Forall (λ p, ¬ rel_next_segment (PyStr.strip p)) before →
  PyStr.strip seg = link_value u "next" →
  u ≠ EmptyString → ¬ occurs_in ">" u → PyStr.strip u = u →
  parse_link_header (Url.join "," (before ++ seg :: later)) = Some u.
Proof.
  intros Hcomma Hbefore Hseg Hu Hgt Hstrip.
  rewrite parse_link_header_parts.
  assert (PyStr.split "," (Url.join "," (before ++ seg :: later)) = before ++ seg :: later)
    as ->.
  { destruct before as [|p before]; by apply split_of_join. }
  apply parse_link_parts_spec.
  destruct (link_value_next u Hu Hgt) as [Hrel Hbr].
  exists (PyStr.strip <$> before), (link_value u "next"), (PyStr.strip <$> later), u.
  split_and!; [by rewrite fmap_app, fmap_cons, Hseg|done|done|done|].
  apply Forall_fmap. eapply Forall_impl; [done|]. intros p Hp [Hrel' _]. by apply Hp.
Qed.

(** A previous-page link, then the next-page link after a blank. *)
Lemma parse_link_header_round_trip_witness :
  parse_link_header header_prev_next = Some "https://x/p3".
Proof.
  apply (parse_link_header_round_trip
           [link_value "https://x/p1" "prev"] (" " +:+ link_value "https://x/p3" "next") []).
  - each_element ltac:(intros Hocc%contains_spec; by vm_compute in Hocc).
  - each_element ltac:(intros Hocc%has_rel_next_spec; by vm_compute in Hocc).
  - by vm_compute.
  - done.
  - intros Hocc%contains_spec. by vm_compute in Hocc.
  - by vm_compute.
Defined.

(** ** [Retry-After]: what counts as a number *)

Lemma all_chars_app (P : ascii → bool) (a b : string) :
  all_chars P (a +:+ b) = all_chars P a && all_chars P b.
Proof.
  induction a as [|c a IH]; [done|]. rewrite str_app_cons. cbn [all_chars].
  by rewrite IH, andb_assoc.
Qed.

Lemma skip_blanks_chars (s : string) :
  all_chars int_char (PyInt.skip_blanks s) = true → all_chars int_char s = true.
Proof.
  induction s as [|c s IH]; [done|]. cbn [PyInt.skip_blanks].
  destruct (PyInt.is_blank c) eqn:Hc; [|done].
  intros Hs. cbn [all_chars]. rewrite IH by done. unfold int_char. by rewrite Hc.
Qed.

Lemma drop_trailing_blanks_chars (s : string) :
  all_chars int_char (PyInt.drop_trailing_blanks s) = true → all_chars int_char s = true.
Proof.
  induction s as [|c s IH]; [done|]. cbn [PyInt.drop_trailing_blanks].
  destruct (PyInt.drop_trailing_blanks s) as [|c' s'] eqn:Hs.
  - destruct (PyInt.is_blank c) eqn:Hc.
    + intros _. cbn [all_chars]. rewrite IH by done. unfold int_char. by rewrite Hc.
    + cbn [all_chars]. intros [-> _]%andb_true_iff. by rewrite IH.
  - cbn [all_chars] in *. intros [-> Hrest]%andb_true_iff. by rewrite IH.
Qed.

Lemma digit_is_int_char (c : ascii) (d : Z) : PyInt.digit_val c = Some d → int_char c = true.
Proof. intros Hd. unfold int_char. rewrite Hd. by rewrite orb_true_r. Qed.

Lemma digits_chars (s : string) :
  (∀ acc count r, PyInt.digits s acc count = Some r → all_chars int_char s = true).
Proof.
  induction s as [|c s IH]; [done|]. intros acc count r. cbn [PyInt.digits all_chars].
  destruct (PyInt.digit_val c) as [d|] eqn:Hd.
  - intros Hr. by rewrite (digit_is_int_char _ _ Hd), (IH _ _ _ Hr).
  - destruct (Ascii.eqb_spec c "_") as [->|]; [|done].
    destruct s as [|c' s']; [done|].
    destruct (PyInt.digit_val c') as [d'|] eqn:Hd'; [|done].
    intros Hr. cbn [int_char]. apply (IH acc count r). cbn [PyInt.digits]. by rewrite Hd'.
Qed.

Lemma unsigned_literal_chars (s : string) (v : Z) :
  PyInt.unsigned_literal s = Some v → all_chars int_char s = true.
Proof.
  unfold PyInt.unsigned_literal. destruct s as [|c r]; [done|].
  destruct (PyInt.digit_val c) as [d|] eqn:Hd; [|done].
  destruct (PyInt.digits r d 1) as [[v' n]|] eqn:Hdigits; [|done].
  intros _. cbn [all_chars]. by rewrite (digit_is_int_char _ _ Hd), (digits_chars _ _ _ _ Hdigits).
Qed.

(** The sign of a literal, read off its first character. *)
Lemma signed_literal_cases (c : ascii) (r : string) :
  match String c r with
  | String "-" r' => Z.opp <$> PyInt.unsigned_literal r'
  | String "+" r' => PyInt.unsigned_literal r'
  | _ => PyInt.unsigned_literal (String c r)
  end
  = if Ascii.eqb c "-" then Z.opp <$> PyInt.unsigned_literal r
    else if Ascii.eqb c "+" then PyInt.unsigned_literal r
    else PyInt.unsigned_literal (String c r).
Proof. by destruct c as [[] [] [] [] [] [] [] []]. Qed.

(** What [int] accepts is made of blanks, digits, signs and underscores
    only. *)
Lemma py_int_chars (s : string) (n : Z) :
  PyInt.py_int s = Ok n → all_chars int_char s = true.
Proof.
  unfold PyInt.py_int. intros Hint.
  apply skip_blanks_chars, drop_trailing_blanks_chars.
  destruct (PyInt.drop_trailing_blanks (PyInt.skip_blanks s)) as [|c r]; [done|].
  rewrite signed_literal_cases in Hint. cbn [all_chars].
  destruct (Ascii.eqb_spec c "-") as [->|_]; [|destruct (Ascii.eqb_spec c "+") as [->|_]].
  - destruct (PyInt.unsigned_literal r) as [v|] eqn:Hv; [|done].
    by rewrite (unsigned_literal_chars _ _ Hv).
  - destruct (PyInt.unsigned_literal r) as [v|] eqn:Hv; [|done].
    by rewrite (unsigned_literal_chars _ _ Hv).
  - destruct (PyInt.unsigned_literal (String c r)) as [v|] eqn:Hv; [|done].
    by rewrite <- (unsigned_literal_chars _ _ Hv).
Qed.

(** X20.  A 429 whose [Retry-After] value holds any character other than
    a digit, a sign, an underscore or a blank (a letter, a colon, a comma:
    the HTTP-date form) is not read as a number: the wait is the default
    of 60 seconds. *)
Theorem retry_after_unreadable_is_default (has_requests : bool) (url token : string)
    (r : Response) (a b : string) (c : ascii) :
  status_code r = 429 →
  headers_get has_requests r "retry-after" = Some (a +:+ String c b) →
  int_char c = false →
  (fetch_page has_requests url token (Answer r)).2 = Err (RateLimitError 60).
Proof.
  intros H429 Hheader Hc. rewrite fetch_page_429 by done. cbn [snd].
  unfold wait_of. rewrite retry_wait_sec_unfold, Hheader.
  destruct (PyInt.py_int (a +:+ String c b)) as [n|e] eqn:Hint; [|done].
  apply py_int_chars in Hint. rewrite all_chars_app in Hint. cbn [all_chars] in Hint.
  rewrite Hc in Hint. by rewrite andb_false_r in Hint.
Qed.

(** An HTTP date: its first character is a letter. *)
Lemma retry_after_unreadable_is_default_witness :
  (fetch_page true "u" "t" (Answer (response_429 retry_after_date))).2
  = Err (RateLimitError 60).
Proof.
  apply (retry_after_unreadable_is_default true "u" "t" (response_429 retry_after_date)
           EmptyString "ed, 21 Oct 2015 07:28:00 GMT" "W").
  - reflexivity.
  - by vm_compute.
  - reflexivity.
Defined.

(** X21.  A [Retry-After] value that is a decimal numeral (of at most
    4300 digits) is read as the number it denotes, and the wait is that
    number or 300, whichever is smaller: 300 for every numeral that
    denotes 300 or more. *)
Theorem retry_after_numeral_clamped (d : Z) (ds : list Z) :
  (length ds < 4300)%nat →
  retry_wait_sec (Some (numeral (d :: ds))) = Z.min (numeral_value 0 (d :: ds)) 300
  ∧ 0 ≤ retry_wait_sec (Some (numeral (d :: ds))) ≤ 300.
Proof.
  intros Hlen. rewrite retry_wait_sec_unfold, py_int_numeral by done.
  split; [done|].
  assert (Hnonneg : ∀ ds' acc, 0 ≤ acc → 0 ≤ numeral_value acc ds').
  { induction ds' as [|d' ds' IH]; intros acc Hacc; [done|].
    cbn [numeral_value]. apply IH. pose proof (Z.mod_pos_bound d' 10). lia. }
  pose proof (Hnonneg (d :: ds) 0 ltac:(lia)). unfold RETRY_AFTER_CAP_SECONDS. lia.
Qed.

(** The numeral 400 is clamped to 300. *)
Lemma retry_after_numeral_clamped_witness :
  retry_wait_sec (Some "400") = 300.
Proof.
  destruct (retry_after_numeral_clamped 4 [0; 0]) as [Hwait _].
  - cbn. lia.
  - exact Hwait.
Defined.

(** ** The credential *)

(** X22.  A credential the prompt returns is the line typed with the
    blanks around it removed: it is not empty and neither starts nor ends
    with a blank, and nothing but the prompt has happened. *)
Theorem token_is_stripped_line (input : StdinResult) (asked : Trace) (token : string) :
  get_token_from_user input = (asked, Ok token) →
  ∃ line,
    input = InputLine line ∧ token = PyStr.strip line ∧ asked = [EvPrompt]
    ∧ token ≠ EmptyString ∧ head_not_space token ∧ last_not_space token.
Proof.
  unfold get_token_from_user. destruct input as [line| |]; [|done..].
  destruct (PyStr.strip line) as [|c s] eqn:Hstrip; [done|]. cbn [PyStr.truthy negb].
  intros [= <- <-]. exists line.
  destruct (strip_ends line) as (_ & Hhead & Hlast). rewrite Hstrip in Hhead, Hlast.
  by split_and!.
Qed.

(** A line typed with blanks around the credential. *)
Lemma token_is_stripped_line_witness :
  ∃ line,
    InputLine "  secret " = InputLine line ∧ "secret" = PyStr.strip line
    ∧ [EvPrompt] = [EvPrompt]
    ∧ "secret" ≠ EmptyString ∧ head_not_space "secret" ∧ last_not_space "secret".
Proof.
  apply (token_is_stripped_line (InputLine "  secret ") [EvPrompt] "secret").
  by vm_compute.
Defined.

(** X23.  Every call of the HTTP client the entry point leads to
    ([session.get] of the page fetcher) is given the typed line with the
    blanks around it removed as its credential, and the initial URL or a
    URL named by a [Link] header as its address.  What the client does
    within a call, such as following a redirect, is not part of the trace. *)
Theorem main_requests_carry_credential (w : World) (line : string) :
  stdin w = InputLine line →
  Forall (λ g, g.2 = PyStr.strip line ∧ url_source true w g.1) (gets (main true w).1).
Proof.
  intros Hstdin. unfold main, get_token_from_user. cbn [negb]. rewrite Hstdin.
  destruct (negb (PyStr.truthy (PyStr.strip line))); [constructor|].
  pose proof (run_gets_sources true w (PyStr.strip line) DEFAULT_CSV_FILENAME) as Hrun.
  destruct (list_all_recordings true w (PyStr.strip line) DEFAULT_CSV_FILENAME)
    as [ran outcome].
  cbn [fst] in Hrun.
  destruct outcome as [count|e|]; [|destruct e|]; cbn [fst];
    rewrite ?app_comm_cons, ?gets_app, ?List.app_nil_r; cbn [gets omap list_omap app];
    rewrite ?List.app_nil_r; exact Hrun.
Qed.

(** The run of three pages: three calls, each with the credential. *)
Lemma main_requests_carry_credential_witness :
  gets (main true three_page_world).1
  = [(noon_url, "secret"); ("https://x/p2", "secret"); ("https://x/p3", "secret")]
  ∧ Forall (λ g, g.2 = PyStr.strip "secret" ∧ url_source true three_page_world g.1)
      (gets (main true three_page_world).1).
Proof.
  split; [reflexivity|].
  by apply (main_requests_carry_credential three_page_world "secret").
Defined.

(** ** What a completed run has gathered *)

Lemma is_page_not_429 (has_requests : bool) (r : Response) :
  is_page has_requests r → (status_code r =? 429)%Z = false.
Proof.
  intros [Hst _]. unfold status_ok in Hst.
  apply andb_true_iff in Hst as [Hst _]. by apply negb_true_iff in Hst.
Qed.

(** A loop that ends by [break] has read a prefix of the answers, and
    gathered the items of the pages among them, in order. *)
Lemma paginate_broke (has_requests : bool) (token : string) (answers : list NetResult)
    (url : string) (all_items : list JSON) (c : Z) (t : Trace) (items : list JSON) :
  paginate has_requests token answers url all_items c = (t, Broke items) →
  ∃ consumed rest,
    answers = consumed ++ rest
    ∧ items = all_items ++ concat (items_of <$> pages_of consumed)
    ∧ length (gets t) = length consumed.
Proof.
  revert url all_items c t.
  induction answers as [|a answers IH]; intros url all_items c t; [done|].
  destruct (answer_cases has_requests a)
    as [(r & -> & H429)|[(r & data & -> & Hst & Hbody)|(e & Hfail)]].
  - rewrite paginate_429 by done.
    destruct (MAX_429_RETRIES <? c + 1)%Z; [done|].
    destruct (wait_of has_requests r <? 0)%Z; [done|].
    destruct (paginate has_requests token answers url all_items (c + 1))
      as [t' exit'] eqn:Hrest.
    unfold after. cbn [fst snd]. intros [= <- ->].
    destruct (IH _ _ _ _ Hrest) as (consumed & rest & -> & -> & Hlen).
    exists (Answer r :: consumed), rest. split; [done|].
    unfold pages_of. cbn [omap list_omap]. unfold rate_limited in H429. rewrite H429.
    cbn [Z.eqb Pos.eqb]. split; [done|].
    unfold backoff_round. cbn [app].
    destruct (gets_get_event has_requests url token
                (EvStderr (MsgRateLimitWait (wait_of has_requests r))
                   :: EvSleep (wait_of has_requests r) :: t'))
      as [-> _].
    cbn [length]. f_equal. exact Hlen.
  - destruct (page_items r) as [its|] eqn:Hitems.
    + assert (Hpage : is_page has_requests r) by (split; [done|by eexists]).
      rewrite paginate_page by done.
      assert (Hpages : ∀ consumed,
                pages_of (Answer r :: consumed) = r :: pages_of consumed).
      { intros consumed. unfold pages_of. cbn [omap list_omap].
        by rewrite (is_page_not_429 _ _ Hpage). }
      destruct (following has_requests r) as [next|].
      * destruct (paginate has_requests token answers next (all_items ++ items_of r) 0)
          as [t' exit'] eqn:Hrest.
        unfold after. cbn [fst snd]. intros [= <- ->].
        destruct (IH _ _ _ _ Hrest) as (consumed & rest & -> & -> & Hlen).
        exists (Answer r :: consumed), rest. split; [done|].
        rewrite Hpages, fmap_cons. cbn [concat]. rewrite <- List.app_assoc. split; [done|].
        cbn [app]. destruct (gets_get_event has_requests url token t') as [-> _].
        cbn [length]. by f_equal.
      * intros [= <- <-]. exists [Answer r], answers. split; [done|].
        rewrite Hpages. cbn. rewrite List.app_nil_r. split; [done|].
        by destruct has_requests.
    + by destruct (paginate_no_items has_requests token r data answers url all_items c
                     Hst Hbody Hitems) as [-> | ->].
  - by rewrite (paginate_failure _ _ _ _ _ _ _ _ Hfail).
Qed.

(** X24.  When the driver returns, it has read a prefix of the network's
    answers, one per request, and the rows it wrote are those of the items
    of the pages in that prefix: page after page, each item once and in the
    order received, whether or not rate-limit rounds came in between.  The
    count returned is the number of these items. *)
Theorem written_rows_are_pages_items (has_requests : bool) (w : World)
    (token csv_path : string) (count : nat) :
  (list_all_recordings has_requests w token csv_path).2 = Returned count →
  ∃ consumed rest,
    answers w = consumed ++ rest
    ∧ List.filter is_row (list_all_recordings has_requests w token csv_path).1
      = (EvWriteRow ∘ cells_of <$> concat (items_of <$> pages_of consumed))
    ∧ count = length (concat (items_of <$> pages_of consumed))
    ∧ length (gets (list_all_recordings has_requests w token csv_path).1)
      = length consumed.
Proof.
  pose proof (run_sleeps_gets has_requests w token csv_path) as Hrun.
  cbv zeta in Hrun. unfold loop_of in Hrun. unfold list_all_recordings in *.
  destruct (_past_30_days_iso (now w)) as [[from_iso to_iso]|e]; [|done].
  pose proof (paginate_events has_requests token (answers w)
                (initial_url from_iso to_iso) [] 0) as Hloop.
  destruct (paginate has_requests token (answers w) (initial_url from_iso to_iso) [] 0)
    as [fetched exit] eqn:Hpaginate.
  cbn [fst] in Hloop. destruct Hrun as [_ Hgets].
  destruct (filter_file_loop _ _ Hloop) as [Hrow _].
  destruct exit as [all_items|e|url items c]; [|done..].
  destruct (paginate_broke _ _ _ _ _ _ _ _ Hpaginate) as (consumed & rest & Hanswers & Hitems & Hlen).
  cbn [app] in Hitems. subst all_items.
  unfold write_recordings_csv in *. destruct (writable w); [|done].
  destruct (write_rows (writerow_error w) (concat (items_of <$> pages_of consumed)))
    as [rows [[]|e]] eqn:Hrows;
    unfold after in *; cbn [fst snd] in *; [|done].
  apply write_rows_ok in Hrows as [-> _].
  destruct (filter_is_row_rows (concat (items_of <$> pages_of consumed))) as (Hr1 & _ & _).
  intros [= <-]. exists consumed, rest. split; [done|]. split; [|split; [done|]].
  - cbn [app]. rewrite !List.filter_app, Hrow. cbn [List.filter is_row app].
    rewrite List.filter_app, Hr1. cbn. by rewrite List.app_nil_r.
  - by rewrite Hgets.
Qed.

(** A 429 between two pages of one item each: two rows, in page order,
    for three answers read. *)
Lemma written_rows_are_pages_items_witness :
  ∃ consumed rest,
    answers world_retry_between_pages = consumed ++ rest
    ∧ List.filter is_row
        (list_all_recordings true world_retry_between_pages "secret" "out.csv").1
      = (EvWriteRow ∘ cells_of <$> concat (items_of <$> pages_of consumed))
    ∧ 2%nat = length (concat (items_of <$> pages_of consumed))
    ∧ length (gets (list_all_recordings true world_retry_between_pages "secret" "out.csv").1)
      = length consumed.
Proof.
  apply (written_rows_are_pages_items true world_retry_between_pages "secret" "out.csv" 2%nat).
  reflexivity.
Defined.
